(** * txtpack: the delimiter codec and the stream extractor

    A shallow embedding of [src/txtpack/delimiter_processing.py].  Python
    [str] values are lists of Unicode code points, [bytes] values are lists
    of bytes, Python integers are [Z], and exceptions are carried by a small
    error monad.  The first module models the builtins the source calls
    (slicing, [str.find], [bytes.find], [int], [str.encode]/[bytes.decode]);
    the second follows the source file function by function. *)

From Stdlib Require Import ZArith List Bool Lia.
From Stdlib Require Strings.String.
From Stdlib Require Import Strings.Byte.
Import ListNotations.
Import String.StringSyntax.
Delimit Scope string_scope with string.
Open Scope Z_scope.

(** ** Exceptions and the error monad *)

(** The messages of the [ValueError]s raised by the source (one constructor
    per [raise] site) and by the builtin [int]. *)
Inductive message : Type :=
| InvalidLiteral          (* int(): invalid literal for int() with base 10 *)
| NotValidStartDelimiter  (* "Not a valid start delimiter: ..." *)
| MissingMiddleDelimiter  (* "Missing middle delimiter in: ..." *)
| MissingBytesSuffix      (* "Missing bytes suffix in: ..." *)
| InvalidByteCount        (* "Invalid byte count '...' in: ..." *)
| NotEnoughContent        (* "Not enough content for declared byte count ..." *)
| FailedToDecode.         (* "Failed to decode content for ..." *)

Inductive exn : Type :=
| ValueError (msg : message)
| UnicodeDecodeError
| UnicodeEncodeError.

Inductive result (A : Type) : Type :=
| Ok (a : A)
| Raise (e : exn).
Arguments Ok {A} a.
Arguments Raise {A} e.

Definition bind {A B} (m : result A) (k : A -> result B) : result B :=
  match m with
  | Ok a => k a
  | Raise e => Raise e
  end.

Notation "x <- m ;; k" := (bind m (fun x => k))
  (at level 61, m at next level, right associativity).
Notation "' pat <- m ;; k" := (bind m (fun x => match x with pat => k end))
  (at level 61, pat pattern, m at next level, right associativity).

(** [try: body except <classes>: handler]. *)
Definition try_except {A} (body : result A) (catches : exn -> bool)
    (handler : exn -> result A) : result A :=
  match body with
  | Ok a => Ok a
  | Raise e => if catches e then handler e else Raise e
  end.

(** [try: x = body except <classes>: handler] followed by the statements
    [rest], which run outside the [try] when [body] raised nothing. *)
Definition try_except_then {A B} (body : result A) (catches : exn -> bool)
    (handler : exn -> result B) (rest : A -> result B) : result B :=
  match body with
  | Ok a => rest a
  | Raise e => if catches e then handler e else Raise e
  end.

(** [UnicodeDecodeError] and [UnicodeEncodeError] are subclasses of
    [ValueError], so [except ValueError] catches all three. *)
Definition is_ValueError (e : exn) : bool := true.

Definition is_UnicodeDecodeError (e : exn) : bool :=
  match e with
  | UnicodeDecodeError => true
  | _ => false
  end.

(** ** Python builtins *)

Module Py.

Definition str : Type := list Z.
Definition bytes : Type := list byte.

Definition len {A} (l : list A) : Z := Z.of_nat (length l).

(** A literal made of ASCII characters only, as a [str] and as [bytes]. *)
Definition b (s : String.string) : bytes := String.list_byte_of_string s.
Definition code (c : byte) : Z := Z.of_N (Byte.to_N c).
Definition u (s : String.string) : str :=
  map code (String.list_byte_of_string s).
Arguments b s%_string.
Arguments u s%_string.

Definition newline : byte := x0a.

Fixpoint str_eqb (s t : str) : bool :=
  match s, t with
  | [], [] => true
  | c :: s', d :: t' => (c =? d) && str_eqb s' t'
  | _, _ => false
  end.

Fixpoint bytes_eqb (s t : bytes) : bool :=
  match s, t with
  | [], [] => true
  | c :: s', d :: t' => Byte.eqb c d && bytes_eqb s' t'
  | _, _ => false
  end.

(** *** Slicing: [l[lo:hi]], negative indices counted from the end and both
    ends clipped to the sequence. *)
Definition adjust_index (n i : Z) : Z :=
  if i <? 0 then Z.max (i + n) 0 else Z.min i n.

Definition slice {A} (l : list A) (lo hi : Z) : list A :=
  let lo' := adjust_index (len l) lo in
  let hi' := adjust_index (len l) hi in
  firstn (Z.to_nat (hi' - lo')) (skipn (Z.to_nat lo') l).

(** *** [str.startswith], [str.endswith], [str.find], [in] *)
Fixpoint startswith (s prefix : str) {struct prefix} : bool :=
  match prefix, s with
  | [], _ => true
  | p :: prefix', c :: s' => (c =? p) && startswith s' prefix'
  | _ :: _, [] => false
  end.

Definition endswith (s suffix : str) : bool :=
  (len suffix <=? len s)
  && str_eqb (skipn (length s - length suffix) s) suffix.

(** [find_from sub s i]: the lowest index of an occurrence of [sub] in [s],
    the indices of [s] starting at [i]; [-1] when there is none. *)
Fixpoint find_from (sub s : str) (i : Z) : Z :=
  if startswith s sub then i
  else match s with
       | [] => -1
       | _ :: s' => find_from sub s' (i + 1)
       end.

Definition find (s sub : str) : Z := find_from sub s 0.

Definition contains (sub s : str) : bool := negb (find s sub =? -1).

(** *** [bytes.find] for a needle of one byte, with a start index *)
Fixpoint index_from (c : byte) (l : bytes) (i : Z) : Z :=
  match l with
  | [] => -1
  | d :: l' => if Byte.eqb d c then i else index_from c l' (i + 1)
  end.

(** The index from which the search really starts: a negative [start] is
    counted from the end and clipped to 0. *)
Definition find_start (l : bytes) (start : Z) : Z :=
  if start <? 0 then Z.max (start + len l) 0 else start.

Definition find_byte (l : bytes) (c : byte) (start : Z) : Z :=
  let start' := find_start l start in
  index_from c (skipn (Z.to_nat start') l) start'.

(** *** UTF-8, strict: no overlong forms, no surrogates, nothing above
    U+10FFFF. *)
Definition continuation (c : Z) : bool := (128 <=? c) && (c <=? 191).

Definition second_of_three (c0 c1 : Z) : bool :=
  if c0 =? 224 then (160 <=? c1) && (c1 <=? 191)
  else if c0 =? 237 then (128 <=? c1) && (c1 <=? 159)
  else continuation c1.

Definition second_of_four (c0 c1 : Z) : bool :=
  if c0 =? 240 then (144 <=? c1) && (c1 <=? 191)
  else if c0 =? 244 then (128 <=? c1) && (c1 <=? 143)
  else continuation c1.

Fixpoint utf8_decode (l : bytes) : option str :=
  match l with
  | [] => Some []
  | b0 :: t0 =>
    let c0 := code b0 in
    if c0 <? 128 then option_map (cons c0) (utf8_decode t0)
    else if (194 <=? c0) && (c0 <=? 223) then
      match t0 with
      | b1 :: t1 =>
        let c1 := code b1 in
        if continuation c1
        then option_map (cons ((c0 - 192) * 64 + (c1 - 128))) (utf8_decode t1)
        else None
      | _ => None
      end
    else if (224 <=? c0) && (c0 <=? 239) then
      match t0 with
      | b1 :: b2 :: t2 =>
        let c1 := code b1 in
        let c2 := code b2 in
        if second_of_three c0 c1 && continuation c2
        then option_map
               (cons ((c0 - 224) * 4096 + (c1 - 128) * 64 + (c2 - 128)))
               (utf8_decode t2)
        else None
      | _ => None
      end
    else if (240 <=? c0) && (c0 <=? 244) then
      match t0 with
      | b1 :: b2 :: b3 :: t3 =>
        let c1 := code b1 in
        let c2 := code b2 in
        let c3 := code b3 in
        if second_of_four c0 c1 && continuation c2 && continuation c3
        then option_map
               (cons ((c0 - 240) * 262144 + (c1 - 128) * 4096
                      + (c2 - 128) * 64 + (c3 - 128)))
               (utf8_decode t3)
        else None
      | _ => None
      end
    else None
  end.

(** [bytes.decode("utf-8")] *)
Definition decode (l : bytes) : result str :=
  match utf8_decode l with
  | Some s => Ok s
  | None => Raise UnicodeDecodeError
  end.

Definition byte_of (c : Z) : byte :=
  match Byte.of_N (Z.to_N c) with
  | Some x => x
  | None => x00
  end.

Definition utf8_encode_point (c : Z) : option bytes :=
  if c <? 0 then None
  else if c <? 128 then Some [byte_of c]
  else if c <? 2048 then Some [byte_of (192 + c / 64); byte_of (128 + c mod 64)]
  else if (55296 <=? c) && (c <=? 57343) then None
  else if c <? 65536 then
    Some [byte_of (224 + c / 4096); byte_of (128 + (c / 64) mod 64);
          byte_of (128 + c mod 64)]
  else if c <? 1114112 then
    Some [byte_of (240 + c / 262144); byte_of (128 + (c / 4096) mod 64);
          byte_of (128 + (c / 64) mod 64); byte_of (128 + c mod 64)]
  else None.

Fixpoint utf8_encode (s : str) : option bytes :=
  match s with
  | [] => Some []
  | c :: s' =>
    match utf8_encode_point c, utf8_encode s' with
    | Some x, Some y => Some (x ++ y)
    | _, _ => None
    end
  end.

(** [str.encode("utf-8")] *)
Definition encode (s : str) : result bytes :=
  match utf8_encode s with
  | Some l => Ok l
  | None => Raise UnicodeEncodeError
  end.

(** *** [str(n)] for an integer: its decimal digits, with a sign when
    negative.  [fuel] bounds the number of digits. *)
Fixpoint decimal_digits (fuel : nat) (n : Z) : str :=
  match fuel with
  | O => []
  | S fuel' =>
    if n <? 10 then [48 + n]
    else decimal_digits fuel' (n / 10) ++ [48 + n mod 10]
  end.

Definition str_of_int (n : Z) : str :=
  if n <? 0
  then 45 :: decimal_digits (S (Z.to_nat (Z.log2 (- n)))) (- n)
  else decimal_digits (S (Z.to_nat (Z.log2 n))) n.

(** *** [int(s)] for a [str], base 10.

    CPython first rewrites the text to ASCII: characters below 127 are kept,
    a Unicode space becomes a blank, a Unicode decimal digit becomes its
    ASCII digit, and anything else becomes ['?'] and ends the text.  The
    ASCII text is then read as: blanks, an optional sign, digits in which
    single underscores may separate digits, blanks.  The interpreter's
    configurable cap on the number of digits (4300 by default) is left out:
    a byte count has at most 19 digits. *)
Definition unicode_isspace (c : Z) : bool :=
  ((9 <=? c) && (c <=? 13)) || ((28 <=? c) && (c <=? 32))
  || (c =? 133) || (c =? 160) || (c =? 5760)
  || ((8192 <=? c) && (c <=? 8202))
  || (c =? 8232) || (c =? 8233) || (c =? 8239) || (c =? 8287) || (c =? 12288).

(** The code point of the digit zero of every block of decimal digits
    (general category Nd, Unicode 15). *)
Definition decimal_zeros : list Z :=
  [48; 1632; 1776; 1984; 2406; 2534; 2662; 2790; 2918; 3046; 3174; 3302;
   3430; 3558; 3664; 3792; 3872; 4160; 4240; 6112; 6160; 6470; 6608; 6784;
   6800; 6992; 7088; 7232; 7248; 42528; 43216; 43264; 43472; 43504; 43600;
   44016; 65296; 66720; 68912; 69734; 69872; 69942; 70096; 70384; 70736;
   70864; 71248; 71360; 71472; 71904; 72016; 72784; 73040; 73120; 73552;
   92768; 92864; 93008; 120782; 120792; 120802; 120812; 120822; 123200;
   123632; 124144; 125264; 130032].

Definition unicode_todecimal (c : Z) : option Z :=
  match List.find (fun z => (z <=? c) && (c <? z + 10)) decimal_zeros with
  | Some z => Some (c - z)
  | None => None
  end.

Fixpoint transform_decimal_and_space_to_ascii (s : str) : str :=
  match s with
  | [] => []
  | c :: s' =>
    if c <? 127 then c :: transform_decimal_and_space_to_ascii s'
    else if unicode_isspace c then 32 :: transform_decimal_and_space_to_ascii s'
    else match unicode_todecimal c with
         | Some d => (48 + d) :: transform_decimal_and_space_to_ascii s'
         | None => [63]
         end
  end.

Definition ascii_isspace (c : Z) : bool :=
  (c =? 32) || ((9 <=? c) && (c <=? 13)).

Definition ascii_isdigit (c : Z) : bool := (48 <=? c) && (c <=? 57).

Fixpoint skip_spaces (s : str) : str :=
  match s with
  | c :: s' => if ascii_isspace c then skip_spaces s' else s
  | [] => []
  end.

(** The digit scan: [acc] is the value read so far, [prev_underscore] tells
    whether the previous character was an underscore.  It stops at the first
    character that is neither a digit nor an underscore and returns the rest
    of the text; a doubled or trailing underscore is an error. *)
Fixpoint scan_digits (s : str) (acc : Z) (prev_underscore : bool)
  : option (Z * str) :=
  match s with
  | c :: s' =>
    if ascii_isdigit c then scan_digits s' (10 * acc + (c - 48)) false
    else if c =? 95 then
      if prev_underscore then None else scan_digits s' acc true
    else if prev_underscore then None else Some (acc, s)
  | [] => if prev_underscore then None else Some (acc, [])
  end.

Definition long_from_string (s : str) : option Z :=
  let s := skip_spaces s in
  let negative :=
    match s with
    | c :: _ => c =? 45
    | [] => false
    end in
  let s :=
    match s with
    | c :: s' => if (c =? 43) || (c =? 45) then s' else s
    | [] => s
    end in
  match s with
  | c :: _ =>
    if ascii_isdigit c then
      match scan_digits s 0 false with
      | Some (n, rest) =>
        match skip_spaces rest with
        | [] => Some (if negative then - n else n)
        | _ :: _ => None
        end
      | None => None
      end
    else None
  | [] => None
  end.

Definition int (s : str) : result Z :=
  match long_from_string (transform_decimal_and_space_to_ascii s) with
  | Some n => Ok n
  | None => Raise (ValueError InvalidLiteral)
  end.

End Py.

(** ** The source file, function by function *)

Import Py.

Record BundlerConfig : Type := {
  file_start_prefix : str;
  file_start_middle : str;
  file_start_bytes_suffix : str;
  file_end_prefix : str;
  file_end_suffix : str;
  default_search_path : str
}.

(** [BundlerConfig()] *)
Definition default_config : BundlerConfig := {|
  file_start_prefix := u "--- FILE: ";
  file_start_middle := u " (";
  file_start_bytes_suffix := u " bytes) ---";
  file_end_prefix := u "--- END: ";
  file_end_suffix := u " ---";
  default_search_path := u "."
|}.

(** [if config is None: config = BundlerConfig()] *)
Definition or_default (config : option BundlerConfig) : BundlerConfig :=
  match config with
  | None => default_config
  | Some c => c
  end.

Definition create_file_start_delimiter (filename : str) (byte_count : Z)
    (config : option BundlerConfig) : str :=
  let config := or_default config in
  file_start_prefix config ++ filename ++ file_start_middle config
  ++ str_of_int byte_count ++ file_start_bytes_suffix config.

Definition create_file_end_delimiter (filename : str)
    (config : option BundlerConfig) : str :=
  let config := or_default config in
  file_end_prefix config ++ filename ++ file_end_suffix config.

Definition is_file_start_delimiter (line : str)
    (config : option BundlerConfig) : bool :=
  let config := or_default config in
  startswith line (file_start_prefix config)
  && contains (file_start_middle config) line
  && endswith line (file_start_bytes_suffix config).

Definition parse_file_start_delimiter (line : str)
    (config : option BundlerConfig) : result (str * Z) :=
  let config := or_default config in
  if negb (is_file_start_delimiter line (Some config))
  then Raise (ValueError NotValidStartDelimiter)
  else
    let middle_pos := find line (file_start_middle config) in
    if middle_pos =? -1 then Raise (ValueError MissingMiddleDelimiter)
    else
      let filename := slice line (len (file_start_prefix config)) middle_pos in
      let bytes_start := middle_pos + len (file_start_middle config) in
      let bytes_end := find line (file_start_bytes_suffix config) in
      if bytes_end =? -1 then Raise (ValueError MissingBytesSuffix)
      else
        let byte_count_str := slice line bytes_start bytes_end in
        byte_count <-
          try_except (int byte_count_str) is_ValueError
            (fun _ => Raise (ValueError InvalidByteCount)) ;;
        Ok (filename, byte_count).

Definition is_file_end_delimiter (line filename : str)
    (config : option BundlerConfig) : bool :=
  let config := or_default config in
  let expected_end :=
    file_end_prefix config ++ filename ++ file_end_suffix config in
  str_eqb line expected_end.

Definition find_next_line_end (content_bytes : bytes) (start_pos : Z) : Z :=
  let line_end := find_byte content_bytes newline start_pos in
  if negb (line_end =? -1) then line_end else len content_bytes.

Definition extract_file_content_at_position (content_bytes : bytes) (pos : Z)
    (filename : str) (byte_count : Z) : result (str * Z) :=
  if pos + byte_count >? len content_bytes
  then Raise (ValueError NotEnoughContent)
  else
    let file_content_bytes := slice content_bytes pos (pos + byte_count) in
    file_content <-
      try_except (decode file_content_bytes) is_UnicodeDecodeError
        (fun _ => Raise (ValueError FailedToDecode)) ;;
    let new_pos := pos + byte_count in
    Ok (file_content, new_pos).

(** The [if line_end > pos] block is a computation of [Some p] when it
    executes [return p] and of [None] when control falls through to the
    final [return pos]. *)
Definition skip_end_delimiter (content_bytes : bytes) (pos : Z)
    (filename : str) (config : option BundlerConfig) : result Z :=
  let config := or_default config in
  if pos >=? len content_bytes then Ok pos
  else
    let pos :=
      if (pos <? len content_bytes)
         && bytes_eqb (slice content_bytes pos (pos + 1)) [newline]
      then pos + 1 else pos in
    let line_end := find_next_line_end content_bytes pos in
    returned <-
      (if line_end >? pos then
         try_except
           (end_line <- decode (slice content_bytes pos line_end) ;;
            if is_file_end_delimiter end_line filename (Some config)
            then Ok (Some (line_end + 1))
            else Ok None)
           is_UnicodeDecodeError
           (fun _ => Ok None)
       else Ok None) ;;
    match returned with
    | Some p => Ok p
    | None => Ok pos
    end.

Definition extract_next_file (content_bytes : bytes) (pos : Z)
    (config : option BundlerConfig) : result (option (str * str) * Z) :=
  let config := or_default config in
  let line_end := find_next_line_end content_bytes pos in
  if line_end =? pos then Ok (None, pos)
  else
    try_except_then (decode (slice content_bytes pos line_end))
      is_UnicodeDecodeError
      (fun _ => Ok (None, line_end + 1))
      (fun line =>
         if negb (is_file_start_delimiter line (Some config))
         then Ok (None, line_end + 1)
         else
           try_except
             ('(filename, byte_count) <-
                parse_file_start_delimiter line (Some config) ;;
              let content_start_pos := line_end + 1 in
              '(file_content, pos_after_content) <-
                extract_file_content_at_position
                  content_bytes content_start_pos filename byte_count ;;
              final_pos <-
                skip_end_delimiter content_bytes pos_after_content filename
                  (Some config) ;;
              Ok (Some (filename, file_content), final_pos))
             is_ValueError
             (fun _ => Ok (None, line_end + 1))).

(** Modelled from the spec: the unpack driver.  Its module
    ([txtpack/content_parsing.py]) is not among the sources; the loop below
    follows the state machine of the specification: start at the given
    cursor, stop at the terminal condition [pos >= len(buffer)], otherwise
    call [extract_next_file], append the record when there is one, stop when
    the cursor did not move and go on from the new cursor when it did.
    [fuel] bounds the number of iterations; [None] means the fuel ran out
    before the loop stopped. *)
Fixpoint unpack_loop (fuel : nat) (content_bytes : bytes) (pos : Z)
    (config : option BundlerConfig) (files : list (str * str))
  : option (result (list (str * str) * Z)) :=
  match fuel with
  | O => None
  | S fuel' =>
    if pos >=? len content_bytes then Some (Ok (files, pos))
    else
      match extract_next_file content_bytes pos config with
      | Raise e => Some (Raise e)
      | Ok (file_data, new_pos) =>
        let files :=
          match file_data with
          | Some record => files ++ [record]
          | None => files
          end in
        if new_pos =? pos then Some (Ok (files, new_pos))
        else unpack_loop fuel' content_bytes new_pos config files
      end
  end.

(** ** Example buffers *)

Definition nl : bytes := [newline].

(** One well-formed record. *)
Definition one_record : bytes :=
  b "--- FILE: a.txt (5 bytes) ---" ++ nl ++ b "hello" ++ nl
  ++ b "--- END: a.txt ---" ++ nl.

(** A record whose end marker names another file. *)
Definition wrong_end_marker : bytes :=
  b "--- FILE: a.txt (5 bytes) ---" ++ nl ++ b "hello" ++ nl
  ++ b "--- END: b.txt ---" ++ nl.

(** A start line that declares 100 bytes, followed by 13. *)
Definition truncated_record : bytes :=
  b "--- FILE: big.txt (100 bytes) ---" ++ nl ++ b "Hello, world!".

(** A blank line followed by text. *)
Definition blank_line_first : bytes := nl ++ b "abc".

(** A line of text followed by a start line that declares [-30] bytes: the
    content would start at offset 30, so the payload "ends" at offset 0. *)
Definition backwards_record : bytes :=
  b "g" ++ nl ++ b "--- FILE: x (-30 bytes) ---" ++ nl.

(** A payload byte, its separator, and an end marker that ends the buffer
    without a newline. *)
Definition unterminated_end_marker : bytes :=
  b "x" ++ nl ++ b "--- END: a.txt ---".

(** ** The pack side of [pipeline.py] *)

(** One element of [content_parts] in [pack_files]: the text
    [f"{start_delimiter}\n{file_content}\n{end_delimiter}\n"]. *)
Definition content_part (filename file_content : str) (byte_count : Z)
    (config : BundlerConfig) : str :=
  let start_delimiter :=
    create_file_start_delimiter filename byte_count (Some config) in
  let end_delimiter := create_file_end_delimiter filename (Some config) in
  start_delimiter ++ [10] ++ file_content ++ [10] ++ end_delimiter ++ [10].

(** The cursor walks through [files]: from [pos], [extract_next_file]
    returns the records of [files] one after the other, each call starting
    where the previous one stopped, and the last one stops at the end of the
    buffer. *)
Fixpoint extracts_in_order (content_bytes : bytes) (pos : Z)
    (config : option BundlerConfig) (files : list (str * str)) : Prop :=
  match files with
  | [] => pos = len content_bytes
  | file_data :: files' =>
    exists new_pos,
      extract_next_file content_bytes pos config = Ok (Some file_data, new_pos)
      /\ extracts_in_order content_bytes new_pos config files'
  end.

(** [pack_files].  Its collaborators live in modules that are not among the
    sources ([pattern_matching], [file_operations]); they are parameters
    here, each returning either the exception it raises or its result.
    [pack_files] itself raises one exception of its own, the [ValueError]
    "No files found matching pattern", and lets the collaborators' pass. *)
Section Pipeline.

Variables Path FileReader Error : Type.
Variable find_matching_files : Path -> str -> Error + list Path.
Variable read_multiple_files :
  list Path -> option FileReader -> Error + list (str * str).
Variable get_file_byte_count : str -> Error + Z.

Inductive pack_error : Type :=
| NoFilesFound
| Raised (e : Error).

(** The [for] loop over [file_data], which appends to [content_parts]. *)
Fixpoint pack_content_parts (config : BundlerConfig)
    (file_data : list (str * str)) (content_parts : list str)
  : Error + list str :=
  match file_data with
  | [] => inr content_parts
  | (filename, file_content) :: file_data' =>
    match get_file_byte_count file_content with
    | inl e => inl e
    | inr byte_count =>
      pack_content_parts config file_data'
        (content_parts
         ++ [content_part filename file_content byte_count config])
    end
  end.

Definition pack_files (pattern : str) (search_directory : Path)
    (config : option BundlerConfig) (file_reader : option FileReader)
  : pack_error + str :=
  let config := or_default config in
  match find_matching_files search_directory pattern with
  | inl e => inl (Raised e)
  | inr matching_files =>
    match matching_files with
    | [] => inl NoFilesFound
    | _ :: _ =>
      match read_multiple_files matching_files file_reader with
      | inl e => inl (Raised e)
      | inr file_data =>
        match pack_content_parts config file_data [] with
        | inl e => inl (Raised e)
        | inr content_parts => inr (concat content_parts)
        end
      end
    end
  end.

(** What the stream needs of a file: a name that is one line, that leaves
    the two searches of the parser on the fragments written around it, and
    that can be encoded; and content that can be encoded, with a byte count
    that is the length of its encoding. *)
Definition packable (file : str * str) : Prop :=
  ~ In 10 (fst file)
  /\ contains (file_start_middle default_config)
       (file_start_prefix default_config ++ fst file) = false
  /\ contains (file_start_bytes_suffix default_config)
       (file_start_prefix default_config ++ fst file) = false
  /\ (exists name_bytes, encode (fst file) = Ok name_bytes)
  /\ exists content_bytes,
       encode (snd file) = Ok content_bytes
       /\ get_file_byte_count (snd file) = inr (len content_bytes).

End Pipeline.

Arguments NoFilesFound {Error}.
Arguments Raised {Error} e.

(** Collaborators for a run in memory: one path per file of a fixed list,
    and the byte count of a text taken as the length of its UTF-8
    encoding. *)
Definition in_memory_find (files : list (str * str)) (_ : nat) (_ : str)
  : exn + list nat :=
  inr (seq 0 (length files)).

Definition in_memory_read (files : list (str * str)) (_ : list nat)
    (_ : option unit) : exn + list (str * str) :=
  inr files.

Definition utf8_byte_count (s : str) : exn + Z :=
  match encode s with
  | Ok bs => inr (len bs)
  | Raise e => inl e
  end.

Definition two_files : list (str * str) :=
  [(u "a.txt", u "hello"); (u "b.txt", u "--- END: a.txt ---")].

(** The configuration and the two-record buffer of the repository's unit
    tests. *)
Definition custom_config : BundlerConfig := {|
  file_start_prefix := u "### START: ";
  file_start_middle := u " [";
  file_start_bytes_suffix := u " bytes] ###";
  file_end_prefix := u "### END: ";
  file_end_suffix := u " ###";
  default_search_path := u "."
|}.

Definition two_records : bytes :=
  b "--- FILE: file1.txt (5 bytes) ---" ++ nl ++ b "Hello" ++ nl
  ++ b "--- END: file1.txt ---" ++ nl
  ++ b "--- FILE: file2.txt (5 bytes) ---" ++ nl ++ b "World" ++ nl
  ++ b "--- END: file2.txt ---" ++ nl.

(** ** Agreement with the unit tests of the repository *)

Section UnitTests.

Example test_create_start_delimiter :
  create_file_start_delimiter (u "test.txt") 123 None
  = u "--- FILE: test.txt (123 bytes) ---"
  /\ create_file_start_delimiter (u "test.txt") 123 (Some custom_config)
     = u "### START: test.txt [123 bytes] ###"
  /\ create_file_start_delimiter (u "empty.txt") 0 None
     = u "--- FILE: empty.txt (0 bytes) ---".
Proof. repeat split. Qed.

Example test_create_end_delimiter :
  create_file_end_delimiter (u "test.txt") None = u "--- END: test.txt ---"
  /\ create_file_end_delimiter (u "test.txt") (Some custom_config)
     = u "### END: test.txt ###".
Proof. repeat split. Qed.

Example test_valid_start_delimiters :
  map (fun line => is_file_start_delimiter line None)
    [u "--- FILE: test.txt (123 bytes) ---";
     u "--- FILE: data.json (0 bytes) ---";
     u "--- FILE: my-file.py (999999 bytes) ---"]
  = [true; true; true].
Proof. reflexivity. Qed.

Example test_invalid_start_delimiters :
  map (fun line => is_file_start_delimiter line None)
    [u "regular text"; u "--- FILE: test.txt";
     u "FILE: test.txt (123 bytes) ---"; u "--- FILE: test.txt (123 bytes)";
     u "--- END: test.txt ---"]
  = [false; false; false; false; false].
Proof. reflexivity. Qed.

Example test_parse_valid_delimiters :
  parse_file_start_delimiter (u "--- FILE: test.txt (123 bytes) ---") None
  = Ok (u "test.txt", 123)
  /\ parse_file_start_delimiter (u "--- FILE: empty.txt (0 bytes) ---") None
     = Ok (u "empty.txt", 0)
  /\ parse_file_start_delimiter (u "--- FILE: large.txt (999999 bytes) ---")
       None
     = Ok (u "large.txt", 999999)
  /\ parse_file_start_delimiter (u "### START: test.txt [123 bytes] ###")
       (Some custom_config)
     = Ok (u "test.txt", 123).
Proof. repeat split. Qed.

Example test_parse_invalid_delimiters :
  map (fun line => parse_file_start_delimiter line None)
    [u "regular text"; u "--- FILE: test.txt";
     u "--- FILE: test.txt (abc bytes) ---"; u "--- FILE: test.txt (123 bytes"]
  = [Raise (ValueError NotValidStartDelimiter);
     Raise (ValueError NotValidStartDelimiter);
     Raise (ValueError InvalidByteCount);
     Raise (ValueError NotValidStartDelimiter)].
Proof. reflexivity. Qed.

Example test_is_file_end_delimiter :
  is_file_end_delimiter (u "--- END: test.txt ---") (u "test.txt") None = true
  /\ is_file_end_delimiter (u "--- END: test.txt ---") (u "other.txt") None
     = false
  /\ is_file_end_delimiter (u "--- END: test.txt") (u "test.txt") None = false
  /\ is_file_end_delimiter (u "### END: test.txt ###") (u "test.txt")
       (Some custom_config) = true.
Proof. repeat split. Qed.

Example test_find_next_line_end :
  find_next_line_end (b "line1" ++ nl ++ b "line2" ++ nl ++ b "line3") 0 = 5
  /\ find_next_line_end (b "line1" ++ nl ++ b "line2" ++ nl ++ b "line3") 6
     = 11
  /\ find_next_line_end (b "single line") 0 = 11
  /\ find_next_line_end (b "line1" ++ nl ++ b "line2") 6 = 11
  /\ find_next_line_end [] 0 = 0.
Proof. repeat split. Qed.

Example test_extract_file_content_at_position :
  extract_file_content_at_position (b "Hello, world!") 0 (u "test.txt") 13
  = Ok (u "Hello, world!", 13)
  /\ extract_file_content_at_position
       (b "Hello, world!" ++ nl ++ b "Extra content") 0 (u "test.txt") 13
     = Ok (u "Hello, world!", 13)
  /\ extract_file_content_at_position
       (b "Hello " ++ [xf0; x9f; x8c; x8d] ++ b "!") 0 (u "unicode.txt") 11
     = Ok (u "Hello " ++ [127757] ++ u "!", 11)
  /\ extract_file_content_at_position (b "short") 0 (u "test.txt") 100
     = Raise (ValueError NotEnoughContent)
  /\ extract_file_content_at_position [xff; xfe; xfd] 0 (u "test.txt") 3
     = Raise (ValueError FailedToDecode).
Proof. repeat split. Qed.

Example test_skip_end_delimiter :
  skip_end_delimiter
    (b "file content" ++ nl ++ b "--- END: test.txt ---" ++ nl
     ++ b "more content") 13 (u "test.txt") None
  = Ok 35
  /\ skip_end_delimiter
       (b "file content" ++ nl ++ b "wrong line" ++ nl ++ b "more content")
       13 (u "test.txt") None
     = Ok 13
  /\ skip_end_delimiter (b "file content") 12 (u "test.txt") None = Ok 12
  /\ skip_end_delimiter
       (b "file content" ++ nl ++ b "### END: test.txt ###" ++ nl
        ++ b "more content") 13 (u "test.txt") (Some custom_config)
     = Ok 35.
Proof. repeat split. Qed.

Example test_extract_next_file :
  extract_next_file
    (b "--- FILE: test.txt (13 bytes) ---" ++ nl ++ b "Hello, world!" ++ nl
     ++ b "--- END: test.txt ---" ++ nl ++ b "remaining content") 0 None
  = Ok (Some (u "test.txt", u "Hello, world!"), 70)
  /\ extract_next_file two_records 0 None
     = Ok (Some (u "file1.txt", u "Hello"), 63)
  /\ extract_next_file two_records 63 None
     = Ok (Some (u "file2.txt", u "World"), len two_records)
  /\ extract_next_file (b "regular content" ++ nl ++ b "no delimiters here")
       0 None
     = Ok (None, 16)
  /\ extract_next_file
       (b "--- FILE: invalid (abc bytes) ---" ++ nl ++ b "content") 0 None
     = Ok (None, 34)
  /\ extract_next_file (b "some content") 12 None = Ok (None, 12).
Proof. repeat split. Qed.

Example test_int :
  map int [u "123"; u " +1_000 "; u "-5"; u "007"; [1633; 1634];
           u ""; u "abc"; u "1__0"; u "_1"; u "1_"; u "- 5"; u "0x10"]
  = [Ok 123; Ok 1000; Ok (-5); Ok 7; Ok 12;
     Raise (ValueError InvalidLiteral); Raise (ValueError InvalidLiteral);
     Raise (ValueError InvalidLiteral); Raise (ValueError InvalidLiteral);
     Raise (ValueError InvalidLiteral); Raise (ValueError InvalidLiteral);
     Raise (ValueError InvalidLiteral)].
Proof. reflexivity. Qed.

End UnitTests.

(** ** Facts about the builtins *)

Section Sequences.

Lemma len_nonneg {A} (l : list A) : 0 <= len l.
Proof. unfold len. lia. Qed.

Lemma len_app {A} (l1 l2 : list A) : len (l1 ++ l2) = len l1 + len l2.
Proof. unfold len. rewrite length_app. lia. Qed.

Lemma len_cons {A} (x : A) (l : list A) : len (x :: l) = 1 + len l.
Proof. unfold len. cbn [length]. lia. Qed.

Lemma str_eqb_eq (s t : str) : str_eqb s t = true <-> s = t.
Proof.
  revert t. induction s as [|c s IH]; intros [|d t]; cbn; try easy.
  rewrite andb_true_iff, Z.eqb_eq, IH. split.
  - intros [-> ->]. reflexivity.
  - intros [= -> ->]. auto.
Qed.

Lemma str_eqb_refl (s : str) : str_eqb s s = true.
Proof. now apply str_eqb_eq. Qed.

Lemma startswith_app (p r : str) : startswith (p ++ r) p = true.
Proof.
  induction p as [|c p IH]; cbn; [reflexivity|].
  now rewrite Z.eqb_refl, IH.
Qed.

Lemma startswith_iff (s p : str) :
  startswith s p = true <-> exists r, s = p ++ r.
Proof.
  split.
  - revert s. induction p as [|c p IH]; intros s H.
    + now exists s.
    + destruct s as [|d s]; cbn in H; [discriminate|].
      apply andb_true_iff in H as [Hc Hs]. apply Z.eqb_eq in Hc. subst d.
      destruct (IH _ Hs) as [r ->]. now exists r.
  - intros [r ->]. apply startswith_app.
Qed.

(** An occurrence of [sub] at the head of [t ++ rest] lies inside [t] when
    [t] is long enough, and otherwise runs over into [rest]. *)
Lemma startswith_app_inv (t rest sub : str) :
  startswith (t ++ rest) sub = true ->
  startswith t sub = true
  \/ (length t < length sub)%nat
     /\ startswith rest (skipn (length t) sub) = true.
Proof.
  revert sub. induction t as [|c t IH]; intros sub H.
  - destruct sub as [|d sub]; [now left|]. right. cbn. split; [lia|exact H].
  - destruct sub as [|d sub]; [now left|].
    cbn in H. apply andb_true_iff in H as [Hc Hs].
    destruct (IH _ Hs) as [Ht | [Hlt Hr]].
    + left. cbn. now rewrite Hc, Ht.
    + right. cbn. split; [lia|exact Hr].
Qed.

Lemma endswith_app (a s : str) : endswith (a ++ s) s = true.
Proof.
  unfold endswith. apply andb_true_iff. split.
  - apply Z.leb_le. rewrite len_app. pose proof (len_nonneg a). lia.
  - rewrite length_app.
    replace (length a + length s - length s)%nat with (length a + 0)%nat by lia.
    rewrite skipn_app, Nat.add_0_r, skipn_all. cbn.
    replace (length a - length a)%nat with 0%nat by lia.
    cbn. apply str_eqb_refl.
Qed.

(** [find_from] returns the first index at which [sub] occurs. *)
Lemma find_from_first (sub : str) (k : nat) :
  forall (s : str) (i : Z),
    (forall j, (j < k)%nat -> startswith (skipn j s) sub = false) ->
    startswith (skipn k s) sub = true ->
    find_from sub s i = i + Z.of_nat k.
Proof.
  induction k as [|k IH]; intros s i Hbefore Hat.
  - cbn in Hat. destruct s; cbn; rewrite Hat; lia.
  - pose proof (Hbefore 0%nat ltac:(lia)) as H0. cbn in H0.
    destruct s as [|c s].
    + cbn in Hat. cbn in H0. congruence.
    + cbn [find_from]. rewrite H0. cbn in Hat.
      rewrite IH; [lia| |exact Hat].
      intros j Hj. apply (Hbefore (S j)). lia.
Qed.

Lemma find_from_range (sub : str) :
  forall (s : str) (i : Z),
    find_from sub s i = -1
    \/ i <= find_from sub s i <= i + len s.
Proof.
  intros s. induction s as [|c s IH]; intros i.
  - cbn. destruct (startswith [] sub); [right; cbn; lia | now left].
  - cbn [find_from]. destruct (startswith (c :: s) sub).
    + right. pose proof (len_nonneg (c :: s)). lia.
    + destruct (IH (i + 1)) as [H | H]; [now left|].
      right. rewrite len_cons. lia.
Qed.

(** When [find_from] finds nothing, [sub] occurs at no index. *)
Lemma find_from_none (sub : str) :
  forall (s : str) (i : Z),
    0 <= i ->
    find_from sub s i = -1 ->
    forall j, startswith (skipn j s) sub = false.
Proof.
  intros s. induction s as [|c s IH]; intros i Hi H j.
  - cbn in H. rewrite skipn_nil.
    destruct (startswith [] sub); [lia | reflexivity].
  - cbn [find_from] in H.
    destruct (startswith (c :: s) sub) eqn:E; [lia|].
    destruct j as [|j]; [exact E|]. cbn.
    apply (IH (i + 1)); [lia | exact H].
Qed.

Lemma find_from_found (sub : str) :
  forall (s : str) (i : Z) (k : nat),
    0 <= i ->
    startswith (skipn k s) sub = true ->
    find_from sub s i <> -1.
Proof.
  intros s i k Hi Hk H.
  pose proof (find_from_none sub s i Hi H k). congruence.
Qed.

End Sequences.

Section Slices.

Context {A : Type}.

Lemma adjust_index_in_range (n i : Z) :
  0 <= i <= n -> adjust_index n i = i.
Proof.
  intros H. unfold adjust_index.
  destruct (Z.ltb_spec i 0); lia.
Qed.

(** Inside the sequence a slice is the plain sub-list. *)
Lemma slice_in_range (l : list A) (lo n : Z) :
  0 <= lo -> 0 <= n -> lo + n <= len l ->
  slice l lo (lo + n) = firstn (Z.to_nat n) (skipn (Z.to_nat lo) l).
Proof.
  intros Hlo Hn Hle. unfold slice.
  rewrite !adjust_index_in_range by lia.
  f_equal. f_equal. lia.
Qed.

Lemma slice_app_middle (a m c : list A) :
  slice (a ++ m ++ c) (len a) (len a + len m) = m.
Proof.
  pose proof (len_nonneg a). pose proof (len_nonneg m).
  pose proof (len_nonneg c).
  rewrite slice_in_range by (rewrite ?len_app; lia).
  unfold len. rewrite !Nat2Z.id.
  rewrite skipn_app, skipn_all, Nat.sub_diag. cbn.
  rewrite firstn_app, firstn_all, Nat.sub_diag. cbn.
  apply app_nil_r.
Qed.

End Slices.

Section ByteSearch.

Lemma index_from_range (c : byte) :
  forall (l : bytes) (i : Z),
    index_from c l i = -1 \/ i <= index_from c l i < i + len l.
Proof.
  intros l. induction l as [|d l IH]; intros i; cbn [index_from].
  - now left.
  - rewrite len_cons. pose proof (len_nonneg l).
    destruct (Byte.eqb d c); [right; lia|].
    destruct (IH (i + 1)) as [H' | H']; [now left | right; lia].
Qed.

Lemma index_from_head (c : byte) (l : bytes) (i : Z) :
  0 <= i -> index_from c l i = i -> exists t, l = c :: t.
Proof.
  intros Hi H. destruct l as [|d l]; cbn [index_from] in H; [lia|].
  destruct (Byte.eqb d c) eqn:E.
  - apply Byte.byte_dec_bl in E. subst d. now exists l.
  - destruct (index_from_range c l (i + 1)); lia.
Qed.

Lemma find_byte_range (l : bytes) (c : byte) (start : Z) :
  find_byte l c start = -1
  \/ find_start l start <= find_byte l c start < len l.
Proof.
  unfold find_byte.
  set (s := find_start l start).
  assert (Hs : 0 <= s).
  { unfold s, find_start. destruct (Z.ltb_spec start 0); lia. }
  destruct (index_from_range c (skipn (Z.to_nat s) l) s) as [H | H];
    [now left | right].
  split; [lia|].
  unfold len in *. rewrite length_skipn in H. lia.
Qed.

Lemma find_next_line_end_le_len (content_bytes : bytes) (pos : Z) :
  find_next_line_end content_bytes pos <= len content_bytes.
Proof.
  unfold find_next_line_end.
  destruct (find_byte_range content_bytes newline pos) as [H | H].
  - rewrite H. cbn. lia.
  - destruct (Z.eqb_spec (find_byte content_bytes newline pos) (-1));
      cbn; lia.
Qed.

Lemma find_next_line_end_ge (content_bytes : bytes) (pos : Z) :
  pos <= len content_bytes ->
  pos <= find_next_line_end content_bytes pos.
Proof.
  intros Hpos. unfold find_next_line_end.
  destruct (find_byte_range content_bytes newline pos) as [H | H].
  - rewrite H. cbn. lia.
  - destruct (Z.eqb_spec (find_byte content_bytes newline pos) (-1));
      cbn; [lia|].
    unfold find_start in H. pose proof (len_nonneg content_bytes).
    destruct (Z.ltb_spec pos 0); lia.
Qed.

(** Past the end of the buffer there is nothing to find. *)
Lemma find_next_line_end_beyond (content_bytes : bytes) (pos : Z) :
  len content_bytes <= pos ->
  find_next_line_end content_bytes pos = len content_bytes.
Proof.
  intros Hpos. unfold find_next_line_end.
  destruct (find_byte_range content_bytes newline pos) as [H | H].
  - rewrite H. reflexivity.
  - unfold find_start in H. pose proof (len_nonneg content_bytes).
    destruct (Z.ltb_spec pos 0); lia.
Qed.

(** The line at [pos] is empty only at the end of the buffer or on a
    newline byte. *)
Lemma find_next_line_end_fixed (content_bytes : bytes) (pos : Z) :
  find_next_line_end content_bytes pos = pos ->
  pos = len content_bytes
  \/ 0 <= pos < len content_bytes
     /\ slice content_bytes pos (pos + 1) = [newline].
Proof.
  unfold find_next_line_end. intros H.
  destruct (Z.eqb_spec (find_byte content_bytes newline pos) (-1)) as [E | E];
    cbn in H; [now left | right].
  destruct (find_byte_range content_bytes newline pos) as [R | R]; [lia|].
  unfold find_start in R.
  destruct (Z.ltb_spec pos 0) as [Hneg | Hnn]; [lia|].
  split; [lia|].
  unfold find_byte, find_start in H.
  destruct (Z.ltb_spec pos 0); [lia|].
  destruct (index_from_head _ _ _ Hnn H) as [t Ht].
  rewrite (slice_in_range content_bytes pos 1) by lia.
  rewrite Ht. reflexivity.
Qed.

(** The line end is the buffer length exactly when no newline is found. *)
Lemma find_next_line_end_len (content_bytes : bytes) (pos : Z) :
  find_next_line_end content_bytes pos = len content_bytes ->
  find_byte content_bytes newline pos = -1.
Proof.
  unfold find_next_line_end. intros H.
  destruct (Z.eqb_spec (find_byte content_bytes newline pos) (-1)) as [E | E];
    cbn in H; [exact E|].
  destruct (find_byte_range content_bytes newline pos); lia.
Qed.

End ByteSearch.

Section Integers.

Lemma log2_div10_lt (n : Z) : 10 <= n -> Z.log2 (n / 10) < Z.log2 n.
Proof.
  intros Hn.
  assert (H2 : 2 * (n / 10) <= n).
  { pose proof (Z.mul_div_le n 10 ltac:(lia)). lia. }
  assert (Hq : 0 < n / 10).
  { apply Z.div_str_pos. lia. }
  pose proof (Z.log2_double (n / 10) Hq) as Hd.
  pose proof (Z.log2_le_mono _ _ H2). lia.
Qed.

Lemma decimal_digits_are_digits (fuel : nat) :
  forall n, 0 <= n ->
    Forall (fun c => 48 <= c <= 57) (decimal_digits fuel n).
Proof.
  induction fuel as [|fuel IH]; intros n Hn; cbn [decimal_digits].
  - constructor.
  - destruct (Z.ltb_spec n 10).
    + constructor; [lia | constructor].
    + apply Forall_app. split.
      * apply IH. apply Z.div_pos; lia.
      * constructor; [|constructor].
        pose proof (Z.mod_pos_bound n 10 ltac:(lia)). lia.
Qed.

Lemma decimal_digits_nonempty (fuel : nat) (n : Z) :
  decimal_digits (S fuel) n <> [].
Proof.
  cbn [decimal_digits]. destruct (n <? 10); [discriminate|].
  intros H. apply app_eq_nil in H as [_ H]. discriminate.
Qed.

(** Reading back the digits written for [n] gives [n]. *)
Lemma scan_decimal_digits (fuel : nat) :
  forall (n : Z) (rest : str) (prev_underscore : bool),
    0 <= n -> Z.log2 n < Z.of_nat fuel ->
    scan_digits (decimal_digits fuel n ++ rest) 0 prev_underscore
    = scan_digits rest n false.
Proof.
  induction fuel as [|fuel IH]; intros n rest pu Hn Hfuel.
  - pose proof (Z.log2_nonneg n). lia.
  - cbn [decimal_digits]. destruct (Z.ltb_spec n 10) as [Hlt | Hge].
    + cbn [app scan_digits]. unfold ascii_isdigit.
      replace ((48 <=? 48 + n) && (48 + n <=? 57)) with true
        by (symmetry; apply andb_true_iff; split; apply Z.leb_le; lia).
      f_equal. lia.
    + rewrite <- app_assoc. rewrite IH.
      * cbn [app scan_digits]. unfold ascii_isdigit.
        pose proof (Z.mod_pos_bound n 10 ltac:(lia)).
        replace ((48 <=? 48 + n mod 10) && (48 + n mod 10 <=? 57)) with true
          by (symmetry; apply andb_true_iff; split; apply Z.leb_le; lia).
        f_equal. pose proof (Z.div_mod n 10 ltac:(lia)). lia.
      * apply Z.div_pos; lia.
      * pose proof (log2_div10_lt n Hge). lia.
Qed.

Lemma transform_ascii (s : str) :
  Forall (fun c => 48 <= c <= 57) s ->
  transform_decimal_and_space_to_ascii s = s.
Proof.
  induction 1 as [|c s Hc _ IH]; cbn; [reflexivity|].
  destruct (Z.ltb_spec c 127); [|lia]. now rewrite IH.
Qed.

(** [int(str(n)) == n] for a count [n >= 0]. *)
Lemma int_str_of_int (n : Z) : 0 <= n -> int (str_of_int n) = Ok n.
Proof.
  intros Hn. unfold str_of_int.
  destruct (Z.ltb_spec n 0); [lia|].
  set (fuel := Z.to_nat (Z.log2 n)).
  pose proof (decimal_digits_are_digits (S fuel) n Hn) as Hd.
  pose proof (decimal_digits_nonempty fuel n) as Hne.
  pose proof (scan_decimal_digits (S fuel) n [] false Hn) as Hscan.
  rewrite app_nil_r in Hscan.
  unfold int. rewrite (transform_ascii _ Hd). unfold long_from_string.
  destruct (decimal_digits (S fuel) n) as [|d ds]; [congruence|].
  inversion Hd as [|? ? Hd0 _]; subst.
  cbn [skip_spaces]. unfold ascii_isspace.
  destruct (Z.eqb_spec d 32); [lia|].
  destruct (Z.leb_spec 9 d); [|lia].
  destruct (Z.leb_spec d 13); [lia|]. cbn [orb andb].
  destruct (Z.eqb_spec d 43); [lia|].
  destruct (Z.eqb_spec d 45); [lia|]. cbn [orb].
  unfold ascii_isdigit at 1.
  destruct (Z.leb_spec 48 d); [|lia].
  destruct (Z.leb_spec d 57); [|lia]. cbn [andb].
  rewrite Hscan; [|unfold fuel; pose proof (Z.log2_nonneg n); lia].
  reflexivity.
Qed.

End Integers.

(** ** The delimiter codec *)

Section Codec.

Lemma find_from_here (sub s : str) (i : Z) :
  startswith s sub = true -> find_from sub s i = i.
Proof. intros H. destruct s; cbn [find_from]; now rewrite H. Qed.

(** A stretch of text in which [sub] starts nowhere is skipped by the
    search. *)
Lemma find_from_app_skip (sub r : str) :
  forall (a : str) (i : Z),
    (forall j, (j < length a)%nat ->
       startswith (skipn j (a ++ r)) sub = false) ->
    find_from sub (a ++ r) i = find_from sub r (i + len a).
Proof.
  induction a as [|c a IH]; intros i H.
  - cbn. f_equal. lia.
  - pose proof (H 0%nat ltac:(cbn; lia)) as H0. cbn [skipn] in H0.
    cbn [app find_from] in *. rewrite H0, IH.
    + f_equal. rewrite len_cons. lia.
    + intros j Hj. apply (H (S j)). cbn. lia.
Qed.

(** If [sub] does not occur in [a] and no proper tail of [sub] starts [r],
    then [sub] starts nowhere in the stretch [a] of [a ++ r]. *)
Lemma no_occurrence_across (sub a r : str) :
  find a sub = -1 ->
  (forall k, (0 < k < length sub)%nat ->
     startswith r (skipn k sub) = false) ->
  forall j, (j < length a)%nat ->
    startswith (skipn j (a ++ r)) sub = false.
Proof.
  intros Hfind Htails j Hj.
  rewrite skipn_app. replace (j - length a)%nat with 0%nat by lia.
  cbn [skipn].
  destruct (startswith (skipn j a ++ r) sub) eqn:E; [exfalso | reflexivity].
  apply startswith_app_inv in E as [E | [Hlt E]].
  - pose proof (find_from_none sub a 0 ltac:(lia) Hfind j). congruence.
  - rewrite Htails in E; [discriminate|].
    rewrite length_skipn in *. lia.
Qed.

(** The parse of a line assembled from its five parts, once the two
    searches are known to land on the fragments written by
    [create_file_start_delimiter]. *)
Lemma parse_assembled_line (c : BundlerConfig) (f d : str) (n : Z) :
  let line :=
    file_start_prefix c ++ f ++ file_start_middle c ++ d
    ++ file_start_bytes_suffix c in
  find line (file_start_middle c) = len (file_start_prefix c ++ f) ->
  find line (file_start_bytes_suffix c)
  = len (file_start_prefix c ++ f ++ file_start_middle c ++ d) ->
  int d = Ok n ->
  parse_file_start_delimiter line (Some c) = Ok (f, n).
Proof.
  intros line Hmid Hsuf Hint.
  pose proof (len_nonneg (file_start_prefix c ++ f)) as Hnn1.
  pose proof
    (len_nonneg (file_start_prefix c ++ f ++ file_start_middle c ++ d))
    as Hnn2.
  unfold parse_file_start_delimiter, is_file_start_delimiter.
  cbn [or_default].
  assert (Hstart : startswith line (file_start_prefix c) = true)
    by apply startswith_app.
  assert (Hcont : contains (file_start_middle c) line = true).
  { unfold contains. rewrite Hmid.
    destruct (Z.eqb_spec (len (file_start_prefix c ++ f)) (-1)); [lia|].
    reflexivity. }
  assert (Hend : endswith line (file_start_bytes_suffix c) = true).
  { unfold line. rewrite !app_assoc. apply endswith_app. }
  rewrite Hstart, Hcont, Hend. cbn [andb negb].
  rewrite Hmid, Hsuf.
  destruct (Z.eqb_spec (len (file_start_prefix c ++ f)) (-1)); [lia|].
  destruct (Z.eqb_spec
    (len (file_start_prefix c ++ f ++ file_start_middle c ++ d)) (-1));
    [lia|].
  assert (Hname :
    slice line (len (file_start_prefix c)) (len (file_start_prefix c ++ f))
    = f).
  { unfold line. rewrite len_app. apply slice_app_middle. }
  assert (Hcount :
    slice line (len (file_start_prefix c ++ f) + len (file_start_middle c))
      (len (file_start_prefix c ++ f ++ file_start_middle c ++ d))
    = d).
  { unfold line.
    replace (file_start_prefix c ++ f ++ file_start_middle c ++ d
             ++ file_start_bytes_suffix c)
      with ((file_start_prefix c ++ f ++ file_start_middle c) ++ d
            ++ file_start_bytes_suffix c)
      by (rewrite <- !app_assoc; reflexivity).
    replace (len (file_start_prefix c ++ f) + len (file_start_middle c))
      with (len (file_start_prefix c ++ f ++ file_start_middle c))
      by (rewrite !len_app; lia).
    replace (len (file_start_prefix c ++ f ++ file_start_middle c ++ d))
      with (len (file_start_prefix c ++ f ++ file_start_middle c) + len d)
      by (rewrite !len_app; lia).
    apply slice_app_middle. }
  rewrite Hname, Hcount, Hint. reflexivity.
Qed.

End Codec.

Section DefaultGrammar.

Lemma contains_false (sub s : str) :
  contains sub s = false -> find s sub = -1.
Proof.
  unfold contains. intros H. apply negb_false_iff in H.
  now apply Z.eqb_eq.
Qed.

Lemma default_middle : file_start_middle default_config = [32; 40].
Proof. reflexivity. Qed.

Lemma default_bytes_suffix :
  file_start_bytes_suffix default_config
  = [32; 98; 121; 116; 101; 115; 41; 32; 45; 45; 45].
Proof. reflexivity. Qed.

(** No proper tail of [" ("] or of [" bytes) ---"] starts a text that
    begins with [" ("]. *)
Lemma middle_tails (x : str) (k : nat) :
  (0 < k < length (file_start_middle default_config))%nat ->
  startswith (file_start_middle default_config ++ x)
    (skipn k (file_start_middle default_config)) = false.
Proof.
  rewrite default_middle. cbn [length]. intros Hk.
  destruct k as [|[|k]]; [lia | reflexivity | lia].
Qed.

Lemma suffix_tails (x : str) (k : nat) :
  (0 < k < length (file_start_bytes_suffix default_config))%nat ->
  startswith (file_start_middle default_config ++ x)
    (skipn k (file_start_bytes_suffix default_config)) = false.
Proof.
  rewrite default_middle, default_bytes_suffix. cbn [length]. intros Hk.
  do 11 (destruct k as [|k]; [try lia; try reflexivity|]). lia.
Qed.

(** The first [" ("] of an assembled line is the one written after the
    filename. *)
Lemma find_middle_default (f x : str) :
  contains (file_start_middle default_config)
    (file_start_prefix default_config ++ f) = false ->
  find (file_start_prefix default_config ++ f
        ++ file_start_middle default_config ++ x)
    (file_start_middle default_config)
  = len (file_start_prefix default_config ++ f).
Proof.
  intros H. apply contains_false in H. unfold find.
  rewrite app_assoc, find_from_app_skip.
  - rewrite find_from_here by apply startswith_app. lia.
  - apply no_occurrence_across; [exact H | apply middle_tails].
Qed.

(** The first [" bytes) ---"] of an assembled line is the one written
    after the digits [d]. *)
Lemma find_suffix_default (f d : str) :
  contains (file_start_bytes_suffix default_config)
    (file_start_prefix default_config ++ f) = false ->
  Forall (fun c => 48 <= c <= 57) d ->
  find (file_start_prefix default_config ++ f
        ++ file_start_middle default_config ++ d
        ++ file_start_bytes_suffix default_config)
    (file_start_bytes_suffix default_config)
  = len (file_start_prefix default_config ++ f
         ++ file_start_middle default_config ++ d).
Proof.
  intros H Hd. apply contains_false in H. unfold find.
  rewrite app_assoc, find_from_app_skip
    by (apply no_occurrence_across; [exact H | apply suffix_tails]).
  rewrite find_from_app_skip.
  - rewrite find_from_app_skip.
    + rewrite find_from_here.
      * rewrite !len_app. lia.
      * rewrite <- (app_nil_r (file_start_bytes_suffix default_config)) at 1.
        apply startswith_app.
    + intros j Hj. rewrite skipn_app.
      replace (j - length d)%nat with 0%nat by lia. cbn [skipn].
      assert (Hs : Forall (fun c => 48 <= c <= 57) (skipn j d)).
      { rewrite <- (firstn_skipn j d) in Hd.
        now apply Forall_app in Hd. }
      destruct (skipn j d) as [|c t] eqn:E.
      * apply (f_equal (@length Z)) in E. rewrite length_skipn in E.
        cbn in E. lia.
      * inversion Hs; subst.
        rewrite default_bytes_suffix. cbn [app startswith].
        destruct (Z.eqb_spec c 32); [lia | reflexivity].
  - rewrite default_middle, default_bytes_suffix.
    cbn [length]. intros j Hj.
    destruct j as [|[|j]]; [reflexivity | reflexivity | lia].
Qed.

End DefaultGrammar.

(** ** The stream extractor *)

Section Extractor.

Lemma bytes_eqb_eq (s t : bytes) : bytes_eqb s t = true <-> s = t.
Proof.
  revert t. induction s as [|c s IH]; intros [|d t]; cbn; try easy.
  rewrite andb_true_iff, IH. split.
  - intros [Hc ->]. apply Byte.byte_dec_bl in Hc. now subst.
  - intros [= -> ->]. split; [now apply Byte.byte_dec_lb | reflexivity].
Qed.

Lemma is_file_end_delimiter_spec (line filename : str)
    (config : option BundlerConfig) :
  is_file_end_delimiter line filename config = true
  <-> line = create_file_end_delimiter filename config.
Proof.
  unfold is_file_end_delimiter, create_file_end_delimiter.
  apply str_eqb_eq.
Qed.

Lemma decode_raises (l : bytes) (e : exn) :
  decode l = Raise e -> e = UnicodeDecodeError.
Proof.
  unfold decode. destruct (utf8_decode l); [discriminate|].
  now intros [= <-].
Qed.

(** The cursor after the optional separator newline. *)
Lemma skip_end_delimiter_cases (content_bytes : bytes) (pos : Z)
    (filename : str) (config : option BundlerConfig) :
  len content_bytes <= pos
  /\ skip_end_delimiter content_bytes pos filename config = Ok pos
  \/ pos < len content_bytes
     /\ exists pos1,
         pos1 = (if bytes_eqb (slice content_bytes pos (pos + 1)) [newline]
                 then pos + 1 else pos)
         /\ (pos1 < find_next_line_end content_bytes pos1
             /\ decode (slice content_bytes pos1
                          (find_next_line_end content_bytes pos1))
                = Ok (create_file_end_delimiter filename config)
             /\ skip_end_delimiter content_bytes pos filename config
                = Ok (find_next_line_end content_bytes pos1 + 1)
             \/ ~ (pos1 < find_next_line_end content_bytes pos1
                   /\ decode (slice content_bytes pos1
                                (find_next_line_end content_bytes pos1))
                      = Ok (create_file_end_delimiter filename config))
                /\ skip_end_delimiter content_bytes pos filename config
                   = Ok pos1).
Proof.
  unfold skip_end_delimiter. rewrite Z.geb_leb.
  destruct (Z.leb_spec (len content_bytes) pos) as [Hge | Hlt];
    [left; split; [lia | reflexivity] | right; split; [lia|]].
  destruct (Z.ltb_spec pos (len content_bytes)) as [_ | ?]; [|lia].
  cbn [andb].
  set (pos1 := if bytes_eqb (slice content_bytes pos (pos + 1)) [newline]
               then pos + 1 else pos).
  exists pos1. split; [reflexivity|].
  set (line_end := find_next_line_end content_bytes pos1).
  rewrite Z.gtb_ltb.
  destruct (Z.ltb_spec pos1 line_end) as [Hgt | Hle].
  - destruct (decode (slice content_bytes pos1 line_end)) as [end_line|e] eqn:D.
    + cbn [bind try_except try_except_then].
      destruct (is_file_end_delimiter end_line filename
                  (Some (or_default config))) eqn:E.
      * left. cbn.
        apply is_file_end_delimiter_spec in E. subst end_line.
        split; [exact Hgt | split; reflexivity].
      * right. cbn. split; [|reflexivity].
        intros [_ [= ->]].
        assert (is_file_end_delimiter
                  (create_file_end_delimiter filename config) filename
                  (Some (or_default config)) = true)
          by now apply is_file_end_delimiter_spec.
        congruence.
    + apply decode_raises in D as ->. cbn. right.
      split; [|reflexivity]. intros [_ [=]].
  - right. cbn. split; [|reflexivity]. intros [? _]. lia.
Qed.

Lemma skip_end_delimiter_total (content_bytes : bytes) (pos : Z)
    (filename : str) (config : option BundlerConfig) :
  exists pos', skip_end_delimiter content_bytes pos filename config = Ok pos'.
Proof.
  destruct (skip_end_delimiter_cases content_bytes pos filename config)
    as [[_ H] | [_ [pos1 [_ [[_ [_ H]] | [_ H]]]]]]; eauto.
Qed.

(** The three ways [extract_next_file] returns. *)
Lemma extract_next_file_cases (content_bytes : bytes) (pos : Z)
    (config : option BundlerConfig) :
  let line_end := find_next_line_end content_bytes pos in
  line_end = pos /\ extract_next_file content_bytes pos config = Ok (None, pos)
  \/ line_end <> pos
     /\ extract_next_file content_bytes pos config = Ok (None, line_end + 1)
  \/ line_end <> pos
     /\ exists line filename byte_count file_content pos_after_content final_pos,
         decode (slice content_bytes pos line_end) = Ok line
         /\ is_file_start_delimiter line config = true
         /\ parse_file_start_delimiter line config = Ok (filename, byte_count)
         /\ extract_file_content_at_position content_bytes (line_end + 1)
              filename byte_count = Ok (file_content, pos_after_content)
         /\ skip_end_delimiter content_bytes pos_after_content filename config
            = Ok final_pos
         /\ extract_next_file content_bytes pos config
            = Ok (Some (filename, file_content), final_pos).
Proof.
  intros line_end. unfold extract_next_file. fold line_end.
  destruct (Z.eqb_spec line_end pos) as [He | Hne]; [now left | right].
  destruct (decode (slice content_bytes pos line_end)) as [line|e] eqn:D.
  2:{ apply decode_raises in D as ->. now left. }
  cbn [bind try_except try_except_then].
  change (is_file_start_delimiter line (Some (or_default config)))
    with (is_file_start_delimiter line config).
  change (parse_file_start_delimiter line (Some (or_default config)))
    with (parse_file_start_delimiter line config).
  destruct (is_file_start_delimiter line config) eqn:Hs; cbn [negb];
    [|now left].
  destruct (parse_file_start_delimiter line config)
    as [[filename byte_count]|e] eqn:Hp; [|now left].
  cbn [bind].
  destruct (extract_file_content_at_position content_bytes (line_end + 1)
              filename byte_count)
    as [[file_content pos_after_content]|e] eqn:Hx; [|now left].
  cbn [bind].
  change (skip_end_delimiter content_bytes pos_after_content filename
            (Some (or_default config)))
    with (skip_end_delimiter content_bytes pos_after_content filename config).
  destruct (skip_end_delimiter_total content_bytes pos_after_content filename
              config) as [final_pos Hk].
  rewrite Hk. cbn. right. split; [exact Hne|].
  exists line, filename, byte_count, file_content, pos_after_content, final_pos.
  repeat split; assumption.
Qed.

(** From a position inside the buffer [skip_end_delimiter] never moves
    back, and it stays within one past the end. *)
Lemma skip_end_delimiter_range (content_bytes : bytes) (pos pos' : Z)
    (filename : str) (config : option BundlerConfig) :
  pos <= len content_bytes ->
  skip_end_delimiter content_bytes pos filename config = Ok pos' ->
  pos <= pos' <= len content_bytes + 1.
Proof.
  intros Hpos Hk.
  destruct (skip_end_delimiter_cases content_bytes pos filename config)
    as [[Hge H] | [Hlt [pos1 [Hpos1 H]]]].
  - rewrite H in Hk. injection Hk as <-. lia.
  - assert (Hrange : pos <= pos1 <= len content_bytes).
    { subst pos1. destruct (bytes_eqb _ _); lia. }
    pose proof (find_next_line_end_le_len content_bytes pos1).
    destruct H as [[Hgt [_ H]] | [_ H]];
      rewrite H in Hk; injection Hk as <-; lia.
Qed.

Lemma extract_file_content_at_position_ok (content_bytes : bytes) (pos : Z)
    (filename file_content : str) (byte_count new_pos : Z) :
  extract_file_content_at_position content_bytes pos filename byte_count
  = Ok (file_content, new_pos) ->
  new_pos = pos + byte_count /\ pos + byte_count <= len content_bytes.
Proof.
  unfold extract_file_content_at_position. rewrite Z.gtb_ltb.
  destruct (Z.ltb_spec (len content_bytes) (pos + byte_count));
    [discriminate|].
  destruct (decode _) as [text|[]]; cbn; try discriminate.
  intros [= _ <-]. split; [reflexivity | assumption].
Qed.

(** [extract_next_file] always returns, and from a position inside the
    buffer its cursor stays within one past the end. *)
Lemma extract_next_file_total (content_bytes : bytes) (pos : Z)
    (config : option BundlerConfig) :
  exists file_data new_pos,
    extract_next_file content_bytes pos config = Ok (file_data, new_pos).
Proof.
  destruct (extract_next_file_cases content_bytes pos config)
    as [[_ H] | [[_ H] | [_ H]]]; eauto.
  destruct H as (? & ? & ? & ? & ? & ? & _ & _ & _ & _ & _ & H). eauto.
Qed.

Lemma extract_next_file_upper (content_bytes : bytes) (pos new_pos : Z)
    (config : option BundlerConfig) (file_data : option (str * str)) :
  pos <= len content_bytes ->
  extract_next_file content_bytes pos config = Ok (file_data, new_pos) ->
  new_pos <= len content_bytes + 1.
Proof.
  intros Hpos Hr.
  pose proof (find_next_line_end_le_len content_bytes pos) as Hle.
  destruct (extract_next_file_cases content_bytes pos config)
    as [[_ H] | [[_ H] | [_ H]]].
  - rewrite H in Hr. injection Hr as _ <-. lia.
  - rewrite H in Hr. injection Hr as _ <-. lia.
  - destruct H as (line & f & n & text & p & q & _ & _ & _ & Hx & Hk & H).
    rewrite H in Hr. injection Hr as _ <-.
    apply extract_file_content_at_position_ok in Hx as [-> Hx].
    pose proof (skip_end_delimiter_range _ _ _ _ _ Hx Hk). lia.
Qed.

(** The cursor does not move back when the start line at [pos], if there is
    one, declares a non-negative byte count. *)
Lemma extract_next_file_monotone (content_bytes : bytes) (pos new_pos : Z)
    (config : option BundlerConfig) (file_data : option (str * str)) :
  pos <= len content_bytes ->
  (forall line filename byte_count,
     decode (slice content_bytes pos (find_next_line_end content_bytes pos))
     = Ok line ->
     parse_file_start_delimiter line config = Ok (filename, byte_count) ->
     0 <= byte_count) ->
  extract_next_file content_bytes pos config = Ok (file_data, new_pos) ->
  pos <= new_pos.
Proof.
  intros Hpos Hcount Hr.
  pose proof (find_next_line_end_ge content_bytes pos Hpos) as Hge.
  destruct (extract_next_file_cases content_bytes pos config)
    as [[_ H] | [[_ H] | [_ H]]].
  - rewrite H in Hr. injection Hr as _ <-. lia.
  - rewrite H in Hr. injection Hr as _ <-. lia.
  - destruct H as (line & f & n & text & p & q & D & _ & Hp & Hx & Hk & H).
    rewrite H in Hr. injection Hr as _ <-.
    pose proof (Hcount line f n D Hp).
    apply extract_file_content_at_position_ok in Hx as [-> Hx].
    pose proof (skip_end_delimiter_range _ _ _ _ _ Hx Hk). lia.
Qed.

End Extractor.

(** ** Properties of the codec *)

Section CodecProperties.

Lemma endswith_occurs (s suffix : str) :
  endswith s suffix = true -> find s suffix <> -1.
Proof.
  unfold endswith. intros H. apply andb_true_iff in H as [_ H].
  apply str_eqb_eq in H.
  apply (find_from_found suffix s 0 (length s - length suffix)); [lia|].
  rewrite H. rewrite <- (app_nil_r suffix) at 1. apply startswith_app.
Qed.

Lemma parse_ok_is_start (line : str) (config : option BundlerConfig)
    (x : str * Z) :
  parse_file_start_delimiter line config = Ok x ->
  is_file_start_delimiter line config = true.
Proof.
  unfold parse_file_start_delimiter.
  change (is_file_start_delimiter line (Some (or_default config)))
    with (is_file_start_delimiter line config).
  destruct (is_file_start_delimiter line config); [reflexivity|].
  discriminate.
Qed.

(** [parse_file_start_delimiter] raises exactly when the line fails the
    syntactic check or [int] rejects the text between the first middle
    fragment and the first bytes suffix; after the syntactic check both
    searches succeed. *)
Lemma parse_file_start_delimiter_raises (line : str)
    (config : option BundlerConfig) :
  let c := or_default config in
  let field :=
    slice line (find line (file_start_middle c) + len (file_start_middle c))
      (find line (file_start_bytes_suffix c)) in
  (exists e, parse_file_start_delimiter line config = Raise e)
  <-> is_file_start_delimiter line config = false
      \/ exists e, int field = Raise e.
Proof.
  intros c field. unfold parse_file_start_delimiter.
  change (is_file_start_delimiter line (Some (or_default config)))
    with (is_file_start_delimiter line config).
  fold c.
  destruct (is_file_start_delimiter line config) eqn:Hs; cbn [negb].
  2:{ split; [now left | eauto]. }
  assert (Hm : find line (file_start_middle c) <> -1).
  { unfold is_file_start_delimiter in Hs. fold c in Hs.
    apply andb_true_iff in Hs as [Hs _]. apply andb_true_iff in Hs as [_ Hs].
    unfold contains in Hs. apply negb_true_iff in Hs.
    now apply Z.eqb_neq. }
  assert (He : find line (file_start_bytes_suffix c) <> -1).
  { unfold is_file_start_delimiter in Hs. fold c in Hs.
    apply andb_true_iff in Hs as [_ Hs]. now apply endswith_occurs. }
  destruct (Z.eqb_spec (find line (file_start_middle c)) (-1)); [lia|].
  destruct (Z.eqb_spec (find line (file_start_bytes_suffix c)) (-1)); [lia|].
  fold field. destruct (int field) as [n'|e]; cbn.
  - split.
    + intros [e [=]].
    + intros [[=] | [e [=]]].
  - split; eauto.
Qed.

(** C1, as amended.  Under the default configuration, for every filename
    [f] such that the start prefix followed by [f] contains neither the
    middle fragment [" ("] nor the bytes suffix [" bytes) ---"], and every
    text [c] with UTF-8 encoding [cb]: parsing the start delimiter created
    for [f] and the byte length of [cb] gives back exactly the filename and
    the byte length. *)
Theorem start_delimiter_round_trip (f c : str) (cb : bytes) :
  encode c = Ok cb ->
  contains (file_start_middle default_config)
    (file_start_prefix default_config ++ f) = false ->
  contains (file_start_bytes_suffix default_config)
    (file_start_prefix default_config ++ f) = false ->
  parse_file_start_delimiter
    (create_file_start_delimiter f (len cb) None) None
  = Ok (f, len cb).
Proof.
  intros _ Hmid Hsuf.
  pose proof (len_nonneg cb) as Hn.
  unfold create_file_start_delimiter. cbn [or_default].
  change (parse_file_start_delimiter ?l None)
    with (parse_file_start_delimiter l (Some default_config)).
  apply parse_assembled_line.
  - now apply find_middle_default.
  - apply find_suffix_default; [exact Hsuf|].
    unfold str_of_int. destruct (Z.ltb_spec (len cb) 0); [lia|].
    now apply decimal_digits_are_digits.
  - now apply int_str_of_int.
Qed.

Lemma start_delimiter_round_trip_witness :
  parse_file_start_delimiter
    (create_file_start_delimiter (u "a.txt") (len (b "hello")) None) None
  = Ok (u "a.txt", len (b "hello")).
Proof.
  apply (start_delimiter_round_trip (u "a.txt") (u "hello") (b "hello"));
    reflexivity.
Defined.

(** C1 as stated fails: the filename [a (b] has neither a NUL nor a
    newline, and the start delimiter created for it and the five bytes of
    [hello] does not parse back (the first [" ("] lies inside the
    filename). *)
Lemma start_delimiter_round_trip_counterexample :
  Forall (fun ch => ch <> 0 /\ ch <> 10) (u "a (b")
  /\ encode (u "hello") = Ok (b "hello")
  /\ parse_file_start_delimiter
       (create_file_start_delimiter (u "a (b") (len (b "hello")) None) None
     = Raise (ValueError InvalidByteCount).
Proof.
  split; [|split; reflexivity].
  repeat constructor; discriminate.
Qed.

(** C4, the failing input.  The line [--- FILE: x (-5 bytes) ---] passes
    the syntactic check and is parsed to the byte count [-5]; it is not
    rejected. *)
Theorem negative_byte_count_accepted :
  is_file_start_delimiter (u "--- FILE: x (-5 bytes) ---") None = true
  /\ parse_file_start_delimiter (u "--- FILE: x (-5 bytes) ---") None
     = Ok (u "x", -5).
Proof. split; reflexivity. Qed.

(** C9.  For every line, filename and configuration,
    [is_file_end_delimiter] holds if and only if the line is equal to the
    end delimiter that [create_file_end_delimiter] forms for that filename
    and configuration. *)
Theorem end_delimiter_exact_equality (line filename : str)
    (config : option BundlerConfig) :
  is_file_end_delimiter line filename config = true
  <-> line = create_file_end_delimiter filename config.
Proof.
  unfold is_file_end_delimiter, create_file_end_delimiter.
  split; intros H.
  - now apply str_eqb_eq.
  - subst line. apply str_eqb_refl.
Qed.

End CodecProperties.

(** ** Properties of the extractor *)

Section ExtractorProperties.

Lemma slice_beyond {A} (l : list A) (lo hi : Z) :
  len l <= lo -> slice l lo hi = [].
Proof.
  intros H. pose proof (len_nonneg l). unfold slice.
  assert (E : adjust_index (len l) lo = len l).
  { unfold adjust_index. destruct (Z.ltb_spec lo 0); lia. }
  rewrite E. unfold len at 3. rewrite Nat2Z.id, skipn_all.
  apply firstn_nil.
Qed.

Lemma extract_next_file_found (content_bytes : bytes) (pos : Z)
    (config : option BundlerConfig) (line filename file_content : str)
    (byte_count pos_after_content final_pos : Z) :
  let line_end := find_next_line_end content_bytes pos in
  line_end <> pos ->
  decode (slice content_bytes pos line_end) = Ok line ->
  parse_file_start_delimiter line config = Ok (filename, byte_count) ->
  extract_file_content_at_position content_bytes (line_end + 1) filename
    byte_count = Ok (file_content, pos_after_content) ->
  skip_end_delimiter content_bytes pos_after_content filename config
  = Ok final_pos ->
  extract_next_file content_bytes pos config
  = Ok (Some (filename, file_content), final_pos).
Proof.
  intros line_end Hne D Hp Hx Hk.
  pose proof (parse_ok_is_start _ _ _ Hp) as Hs.
  unfold extract_next_file. fold line_end.
  destruct (Z.eqb_spec line_end pos); [contradiction|].
  rewrite D. cbn [bind try_except try_except_then].
  change (is_file_start_delimiter line (Some (or_default config)))
    with (is_file_start_delimiter line config).
  change (parse_file_start_delimiter line (Some (or_default config)))
    with (parse_file_start_delimiter line config).
  rewrite Hs, Hp. cbn [negb bind]. rewrite Hx. cbn [bind].
  change (skip_end_delimiter content_bytes pos_after_content filename
            (Some (or_default config)))
    with (skip_end_delimiter content_bytes pos_after_content filename config).
  rewrite Hk. reflexivity.
Qed.

Lemma extract_next_file_discarded (content_bytes : bytes) (pos : Z)
    (config : option BundlerConfig) (line filename : str)
    (byte_count : Z) (e : exn) :
  let line_end := find_next_line_end content_bytes pos in
  line_end <> pos ->
  decode (slice content_bytes pos line_end) = Ok line ->
  parse_file_start_delimiter line config = Ok (filename, byte_count) ->
  extract_file_content_at_position content_bytes (line_end + 1) filename
    byte_count = Raise e ->
  extract_next_file content_bytes pos config = Ok (None, line_end + 1).
Proof.
  intros line_end Hne D Hp Hx.
  pose proof (parse_ok_is_start _ _ _ Hp) as Hs.
  unfold extract_next_file. fold line_end.
  destruct (Z.eqb_spec line_end pos); [contradiction|].
  rewrite D. cbn [bind try_except try_except_then].
  change (is_file_start_delimiter line (Some (or_default config)))
    with (is_file_start_delimiter line config).
  change (parse_file_start_delimiter line (Some (or_default config)))
    with (parse_file_start_delimiter line config).
  rewrite Hs, Hp. cbn [negb bind]. rewrite Hx. reflexivity.
Qed.

(** C2, as amended.  For every buffer [B], position [pos >= 0] and count
    [n >= 0] with [pos + n <= len(B)]: when the bytes [B[pos .. pos+n)] are
    valid UTF-8, [extract_file_content_at_position] returns their decoded
    text and the cursor [pos + n], whatever those bytes contain; when they
    are not, it raises the "Failed to decode" [ValueError]. *)
Theorem byte_exact_extraction (content_bytes : bytes) (pos : Z)
    (filename : str) (byte_count : Z) :
  0 <= pos -> 0 <= byte_count -> pos + byte_count <= len content_bytes ->
  extract_file_content_at_position content_bytes pos filename byte_count
  = match utf8_decode (firstn (Z.to_nat byte_count)
                         (skipn (Z.to_nat pos) content_bytes)) with
    | Some text => Ok (text, pos + byte_count)
    | None => Raise (ValueError FailedToDecode)
    end.
Proof.
  intros Hpos Hn Hle. unfold extract_file_content_at_position.
  rewrite Z.gtb_ltb.
  destruct (Z.ltb_spec (len content_bytes) (pos + byte_count)); [lia|].
  rewrite slice_in_range by assumption.
  unfold decode.
  destruct (utf8_decode _); reflexivity.
Qed.

Lemma byte_exact_extraction_witness :
  extract_file_content_at_position
    (b "Hello, world!" ++ nl ++ b "--- FILE: x (1 bytes) ---") 0 (u "t") 13
  = Ok (u "Hello, world!", 13).
Proof.
  rewrite byte_exact_extraction; [reflexivity | | |]; vm_compute; congruence.
Defined.

(** C2 as stated fails: the one-byte buffer [0xff] has one byte available
    at position 0, and extracting one byte returns nothing; it raises. *)
Lemma byte_exact_extraction_counterexample :
  0 + 1 <= len [xff]
  /\ extract_file_content_at_position [xff] 0 (u "f") 1
     = Raise (ValueError FailedToDecode).
Proof. split; [vm_compute; congruence | reflexivity]. Qed.

(** C3, as amended.  [extract_next_file] returns no record and the
    unchanged cursor only when the line at [pos] is empty, that is when
    [pos] is at or past the end of the buffer or on a newline byte; at a
    position inside the buffer that is not on a newline byte the call
    returns a record or a cursor greater than [pos]. *)
Theorem no_progress_only_on_empty_line (content_bytes : bytes) (pos : Z)
    (config : option BundlerConfig) :
  (extract_next_file content_bytes pos config = Ok (None, pos) ->
   len content_bytes <= pos
   \/ slice content_bytes pos (pos + 1) = [newline])
  /\ (0 <= pos < len content_bytes ->
      slice content_bytes pos (pos + 1) <> [newline] ->
      exists file_data new_pos,
        extract_next_file content_bytes pos config = Ok (file_data, new_pos)
        /\ (file_data <> None \/ pos < new_pos)).
Proof.
  pose proof (find_next_line_end_le_len content_bytes pos) as Hle.
  destruct (extract_next_file_cases content_bytes pos config)
    as [[He Hr] | [[Hne Hr] | [Hne Hr]]].
  - apply find_next_line_end_fixed in He. split.
    + intros _. destruct He as [-> | [_ He]]; [left; lia | now right].
    + intros Hin Hnl. destruct He as [-> | [_ He]]; [lia | contradiction].
  - split.
    + rewrite Hr. intros [= H]. left.
      destruct (Z.le_gt_cases pos (len content_bytes)) as [Hin | Hout];
        [|lia].
      pose proof (find_next_line_end_ge content_bytes pos Hin). lia.
    + intros Hin _. eexists _, _. split; [exact Hr|]. right.
      pose proof (find_next_line_end_ge content_bytes pos ltac:(lia)). lia.
  - destruct Hr as (line & f & n & text & p & q & _ & _ & _ & _ & _ & Hr).
    split.
    + rewrite Hr. discriminate.
    + intros _ _. eexists _, _. split; [exact Hr|]. left. discriminate.
Qed.

Lemma no_progress_only_on_empty_line_witness :
  (len blank_line_first <= 0
   \/ slice blank_line_first 0 (0 + 1) = [newline])
  /\ exists file_data new_pos,
       extract_next_file (b "abc" ++ nl) 0 None = Ok (file_data, new_pos)
       /\ (file_data <> None \/ 0 < new_pos).
Proof.
  split.
  - apply (proj1 (no_progress_only_on_empty_line blank_line_first 0 None)).
    reflexivity.
  - apply (proj2 (no_progress_only_on_empty_line (b "abc" ++ nl) 0 None)).
    + vm_compute. split; congruence.
    + vm_compute. congruence.
Defined.

(** C3 as stated fails: at position 0 of a buffer that starts with a blank
    line, [extract_next_file] returns no record and the same cursor,
    although position 0 is strictly inside the buffer. *)
Lemma no_progress_only_on_empty_line_counterexample :
  extract_next_file blank_line_first 0 None = Ok (None, 0)
  /\ ~ 0 >= len blank_line_first.
Proof. split; [reflexivity | vm_compute; congruence]. Qed.

End ExtractorProperties.

Section Recovery.

(** C5.  For every buffer [B], position [pos] and declared count [n] with
    [pos + n > len(B)], [extract_file_content_at_position] raises the "Not
    enough content" [ValueError] and returns nothing; and when [pos] is the
    content start of a start line that declares [n] bytes (the line runs
    from [start] to [pos - 1]), [extract_next_file] at [start] catches the
    failure and returns no record and the cursor [pos], one past the end of
    the start line. *)
Theorem truncation_detection (content_bytes : bytes) (pos : Z)
    (filename : str) (byte_count : Z) :
  pos + byte_count > len content_bytes ->
  extract_file_content_at_position content_bytes pos filename byte_count
  = Raise (ValueError NotEnoughContent)
  /\ forall (start : Z) (config : option BundlerConfig) (line : str),
       find_next_line_end content_bytes start + 1 = pos ->
       find_next_line_end content_bytes start <> start ->
       decode (slice content_bytes start
                 (find_next_line_end content_bytes start)) = Ok line ->
       parse_file_start_delimiter line config = Ok (filename, byte_count) ->
       extract_next_file content_bytes start config = Ok (None, pos).
Proof.
  intros Hgt.
  assert (Hx : extract_file_content_at_position content_bytes pos filename
                 byte_count = Raise (ValueError NotEnoughContent)).
  { unfold extract_file_content_at_position. rewrite Z.gtb_ltb.
    destruct (Z.ltb_spec (len content_bytes) (pos + byte_count));
      [reflexivity | lia]. }
  split; [exact Hx|].
  intros start config line Hpos Hne D Hp. subst pos.
  apply (extract_next_file_discarded content_bytes start config line filename
           byte_count (ValueError NotEnoughContent)); assumption.
Qed.

Lemma truncation_detection_witness :
  extract_file_content_at_position truncated_record 34 (u "big.txt") 100
  = Raise (ValueError NotEnoughContent)
  /\ extract_next_file truncated_record 0 None = Ok (None, 34).
Proof.
  destruct (truncation_detection truncated_record 34 (u "big.txt") 100
              ltac:(reflexivity)) as [H1 H2].
  split; [exact H1|].
  apply (H2 0 None (u "--- FILE: big.txt (100 bytes) ---"));
    [reflexivity | vm_compute; congruence | reflexivity | reflexivity].
Defined.

(** C6.  [skip_end_delimiter] always returns a position.  When the byte at
    [pos] is the separator newline and the line after it does not decode to
    the expected end marker (another filename, malformed, truncated or
    missing), it returns [pos + 1], the position right after the separator;
    when there is no separator newline at [pos] and the line at [pos] is not
    the expected end marker, it returns [pos].  And whenever the start line
    at [start] parses and its payload is extracted up to [pos],
    [extract_next_file] returns that record, whatever follows the payload. *)
Theorem end_marker_tolerance (content_bytes : bytes) (pos : Z)
    (filename : str) (config : option BundlerConfig) :
  (exists pos',
     skip_end_delimiter content_bytes pos filename config = Ok pos')
  /\ (slice content_bytes pos (pos + 1) = [newline] ->
      decode (slice content_bytes (pos + 1)
                (find_next_line_end content_bytes (pos + 1)))
      <> Ok (create_file_end_delimiter filename config) ->
      skip_end_delimiter content_bytes pos filename config = Ok (pos + 1))
  /\ (slice content_bytes pos (pos + 1) <> [newline] ->
      decode (slice content_bytes pos
                (find_next_line_end content_bytes pos))
      <> Ok (create_file_end_delimiter filename config) ->
      skip_end_delimiter content_bytes pos filename config = Ok pos)
  /\ (forall (start : Z) (line file_content : str) (byte_count : Z),
        find_next_line_end content_bytes start <> start ->
        decode (slice content_bytes start
                  (find_next_line_end content_bytes start)) = Ok line ->
        parse_file_start_delimiter line config = Ok (filename, byte_count) ->
        extract_file_content_at_position content_bytes
          (find_next_line_end content_bytes start + 1) filename byte_count
        = Ok (file_content, pos) ->
        exists final_pos,
          skip_end_delimiter content_bytes pos filename config = Ok final_pos
          /\ extract_next_file content_bytes start config
             = Ok (Some (filename, file_content), final_pos)).
Proof.
  pose proof (skip_end_delimiter_total content_bytes pos filename config)
    as Htotal.
  split; [exact Htotal|].
  split; [|split].
  - intros Hnl Hnot.
    destruct (skip_end_delimiter_cases content_bytes pos filename config)
      as [[Hge _] | [_ [pos1 [Hpos1 H]]]].
    + rewrite slice_beyond in Hnl by exact Hge. discriminate.
    + apply bytes_eqb_eq in Hnl. rewrite Hnl in Hpos1. subst pos1.
      destruct H as [[_ [D _]] | [_ H]]; [contradiction | exact H].
  - intros Hnl Hnot.
    destruct (skip_end_delimiter_cases content_bytes pos filename config)
      as [[_ H] | [_ [pos1 [Hpos1 H]]]]; [exact H|].
    destruct (bytes_eqb (slice content_bytes pos (pos + 1)) [newline]) eqn:E.
    + apply bytes_eqb_eq in E. contradiction.
    + subst pos1.
      destruct H as [[_ [D _]] | [_ H]]; [contradiction | exact H].
  - intros start line file_content byte_count Hne D Hp Hx.
    destruct Htotal as [final_pos Hk]. exists final_pos.
    split; [exact Hk|].
    now apply (extract_next_file_found content_bytes start config line
                 filename file_content byte_count pos final_pos).
Qed.

Lemma end_marker_tolerance_witness :
  skip_end_delimiter wrong_end_marker 35 (u "a.txt") None = Ok 36
  /\ extract_next_file wrong_end_marker 0 None
     = Ok (Some (u "a.txt", u "hello"), 36)
  /\ skip_end_delimiter (b "helloXYZ") 5 (u "a.txt") None = Ok 5.
Proof.
  destruct (end_marker_tolerance wrong_end_marker 35 (u "a.txt") None)
    as (_ & Hskip & _ & Hrecord).
  assert (H : skip_end_delimiter wrong_end_marker 35 (u "a.txt") None
              = Ok (35 + 1)).
  { apply Hskip; [reflexivity | vm_compute; congruence]. }
  split; [exact H|]. split.
  - destruct (Hrecord 0 (u "--- FILE: a.txt (5 bytes) ---") (u "hello") 5)
      as [final_pos [Hk Hr]];
      [vm_compute; congruence | reflexivity | reflexivity | reflexivity |].
    rewrite H in Hk. injection Hk as <-. exact Hr.
  - destruct (end_marker_tolerance (b "helloXYZ") 5 (u "a.txt") None)
      as (_ & _ & Hstay & _).
    apply Hstay; vm_compute; congruence.
Defined.

(** C8.  Under the default configuration, [extract_next_file] at position 0
    of the buffer
    [--- FILE: a.txt (5 bytes) ---\nhello\n--- END: a.txt ---\n] returns the
    record [("a.txt", "hello")] and the buffer length as the cursor; at that
    cursor it returns no record and does not move, so the scan yields
    exactly that one record. *)
Theorem one_record_scenario :
  extract_next_file one_record 0 None
  = Ok (Some (u "a.txt", u "hello"), len one_record)
  /\ extract_next_file one_record (len one_record) None
     = Ok (None, len one_record).
Proof. split; reflexivity. Qed.

(** C10, as amended.  For every buffer [B], filename, configuration and
    position [pos <= len(B)], [skip_end_delimiter] returns a position [pos']
    with [pos <= pos' <= len(B) + 1]; and [pos' = len(B) + 1] only when the
    matched end-marker line, which starts at [pos] or right after the
    separator at [pos], runs to the end of the buffer with no newline after
    it. *)
Theorem skip_end_delimiter_bounds (content_bytes : bytes) (pos : Z)
    (filename : str) (config : option BundlerConfig) :
  pos <= len content_bytes ->
  exists pos',
    skip_end_delimiter content_bytes pos filename config = Ok pos'
    /\ pos <= pos' <= len content_bytes + 1
    /\ (pos' = len content_bytes + 1 ->
        exists line_start line,
          (line_start = pos \/ line_start = pos + 1)
          /\ find_byte content_bytes newline line_start = -1
          /\ decode (slice content_bytes line_start (len content_bytes))
             = Ok line
          /\ is_file_end_delimiter line filename config = true).
Proof.
  intros Hpos.
  destruct (skip_end_delimiter_cases content_bytes pos filename config)
    as [[Hge H] | [Hlt [pos1 [Hpos1 H]]]].
  - exists pos. split; [exact H|]. split; [lia|]. intros ?. lia.
  - assert (Hrange : pos <= pos1 <= len content_bytes).
    { subst pos1. destruct (bytes_eqb _ _); lia. }
    assert (Hor : pos1 = pos \/ pos1 = pos + 1).
    { subst pos1. destruct (bytes_eqb _ _); auto. }
    pose proof (find_next_line_end_le_len content_bytes pos1) as Hle.
    destruct H as [[Hgt [D H]] | [_ H]].
    + exists (find_next_line_end content_bytes pos1 + 1).
      split; [exact H|]. split; [lia|]. intros Hend.
      assert (E : find_next_line_end content_bytes pos1 = len content_bytes)
        by lia.
      exists pos1, (create_file_end_delimiter filename config).
      split; [exact Hor|]. split; [now apply find_next_line_end_len|].
      rewrite E in D. split; [exact D|].
      now apply is_file_end_delimiter_spec.
    + exists pos1. split; [exact H|]. split; [lia|]. intros ?. lia.
Qed.

Lemma skip_end_delimiter_bounds_witness :
  exists pos',
    skip_end_delimiter unterminated_end_marker 1 (u "a.txt") None = Ok pos'
    /\ 1 <= pos' <= len unterminated_end_marker + 1
    /\ (pos' = len unterminated_end_marker + 1 ->
        exists line_start line,
          (line_start = 1 \/ line_start = 1 + 1)
          /\ find_byte unterminated_end_marker newline line_start = -1
          /\ decode (slice unterminated_end_marker line_start
                       (len unterminated_end_marker)) = Ok line
          /\ is_file_end_delimiter line (u "a.txt") None = true).
Proof.
  apply (skip_end_delimiter_bounds unterminated_end_marker 1 (u "a.txt") None).
  vm_compute. congruence.
Defined.

(** C10 as stated fails: at position 5 of the three-byte buffer [abc],
    [skip_end_delimiter] returns 5, which is greater than the buffer length
    plus one. *)
Lemma skip_end_delimiter_bounds_counterexample :
  skip_end_delimiter (b "abc") 5 (u "x") None = Ok 5
  /\ ~ 5 <= len (b "abc") + 1.
Proof. split; [reflexivity | vm_compute; congruence]. Qed.

End Recovery.

(** ** The unpack driver *)

Section Driver.

(** On [backwards_record] the cursor goes from 0 to 2 and, through the
    record that declares [-30] bytes, from 2 back to 0. *)
Lemma backwards_record_steps :
  extract_next_file backwards_record 0 None = Ok (None, 2)
  /\ extract_next_file backwards_record 2 None = Ok (Some (u "x", []), 0).
Proof. split; reflexivity. Qed.

Lemma backwards_record_cycle (fuel : nat) :
  forall files,
    unpack_loop fuel backwards_record 0 None files = None
    /\ unpack_loop fuel backwards_record 2 None files = None.
Proof.
  destruct backwards_record_steps as [H0 H2].
  induction fuel as [|fuel IH]; intros files; [split; reflexivity|].
  cbn [unpack_loop]. rewrite H0, H2.
  change (0 >=? len backwards_record) with false.
  change (2 >=? len backwards_record) with false.
  change (2 =? 0) with false. change (0 =? 2) with false.
  cbv iota. split; apply IH.
Qed.

(** The driver on the one-record and the two-record buffers. *)
Example unpack_one_record :
  unpack_loop 2 one_record 0 None []
  = Some (Ok ([(u "a.txt", u "hello")], len one_record)).
Proof. reflexivity. Qed.

Example unpack_two_records :
  unpack_loop 3 two_records 0 None []
  = Some (Ok ([(u "file1.txt", u "Hello"); (u "file2.txt", u "World")],
              len two_records)).
Proof. reflexivity. Qed.

(** When no start line of the buffer declares a negative byte count, the
    cursor only moves forward and the driver stops within [len(buffer) + 2]
    iterations. *)
Lemma unpack_loop_stops (content_bytes : bytes)
    (config : option BundlerConfig) :
  (forall pos line filename byte_count,
     decode (slice content_bytes pos (find_next_line_end content_bytes pos))
     = Ok line ->
     parse_file_start_delimiter line config = Ok (filename, byte_count) ->
     0 <= byte_count) ->
  forall (fuel : nat) (pos : Z) (files : list (str * str)),
    pos <= len content_bytes + 1 ->
    len content_bytes + 1 - pos < Z.of_nat fuel ->
    exists out, unpack_loop fuel content_bytes pos config files = Some (Ok out).
Proof.
  intros Hcount fuel.
  induction fuel as [|fuel IH]; intros pos files Hpos Hfuel;
    [cbn in Hfuel; lia|].
  cbn [unpack_loop]. rewrite Z.geb_leb.
  destruct (Z.leb_spec (len content_bytes) pos) as [Hge | Hlt]; [eauto|].
  destruct (extract_next_file_total content_bytes pos config)
    as (file_data & new_pos & Hr).
  rewrite Hr.
  destruct (Z.eqb_spec new_pos pos) as [He | Hne]; [eauto|].
  pose proof (extract_next_file_monotone content_bytes pos new_pos config
                file_data ltac:(lia) (Hcount pos) Hr).
  pose proof (extract_next_file_upper content_bytes pos new_pos config
                file_data ltac:(lia) Hr).
  apply IH; lia.
Qed.

(** C7, the failing input.  On [backwards_record], whose second line
    declares [-30] bytes, the driver started at position 0 never stops:
    whatever the number of iterations allowed, the loop is still running
    when they are used up. *)
Theorem unpack_loop_diverges (fuel : nat) :
  unpack_loop fuel backwards_record 0 None [] = None.
Proof. apply backwards_record_cycle. Qed.

End Driver.

(** ** Further facts about the searches *)

Section SearchFacts.

Lemma startswith_app_l (a rest sub : str) :
  startswith a sub = true -> startswith (a ++ rest) sub = true.
Proof.
  intros H. apply startswith_iff in H as [r ->].
  rewrite <- app_assoc. apply startswith_app.
Qed.

(** A successful [find_from] lands on the first occurrence. *)
Lemma find_from_found_at (sub : str) :
  forall (s : str) (i : Z),
    find_from sub s i <> -1 ->
    0 <= i ->
    exists k : nat,
      find_from sub s i = i + Z.of_nat k
      /\ (k <= length s)%nat
      /\ startswith (skipn k s) sub = true
      /\ forall j, (j < k)%nat -> startswith (skipn j s) sub = false.
Proof.
  induction s as [|c s IH]; intros i Hfound Hi; cbn [find_from] in *.
  - destruct (startswith [] sub) eqn:E; [|congruence].
    exists 0%nat. cbn. repeat split; try lia. exact E.
  - destruct (startswith (c :: s) sub) eqn:E.
    + exists 0%nat. cbn [skipn length]. repeat split; try lia. exact E.
    + destruct (IH (i + 1) Hfound ltac:(lia)) as (k & Hk & Hle & Hat & Hmin).
      exists (S k). cbn [skipn length]. repeat split; try lia; [exact Hat|].
      intros [|j] Hj; cbn [skipn]; [exact E | apply Hmin; lia].
Qed.

(** [index_from] returns the index of the first byte equal to [c]. *)
Lemma index_from_spec (c : byte) :
  forall (l : bytes) (i : Z),
    index_from c l i = -1 /\ ~ In c l
    \/ exists (k : nat) (t : bytes),
         index_from c l i = i + Z.of_nat k
         /\ skipn k l = c :: t
         /\ ~ In c (firstn k l).
Proof.
  induction l as [|d l IH]; intros i; cbn [index_from].
  - left. split; [reflexivity | intros []].
  - destruct (Byte.eqb d c) eqn:E.
    + right. exists 0%nat, l. apply Byte.byte_dec_bl in E. subst d.
      cbn. repeat split; [lia | intros []].
    + apply Byte.eqb_false in E.
      destruct (IH (i + 1)) as [[H Hnot] | (k & t & H & Hs & Hnot)].
      * left. split; [exact H|]. intros [-> | Hin]; contradiction.
      * right. exists (S k), t. cbn [skipn firstn].
        repeat split; [lia | exact Hs |].
        intros [-> | Hin]; contradiction.
Qed.

(** Searching a buffer of the shape [pre ++ x ++ c :: rest] from the end of
    [pre], when [c] is not in [x]. *)
Lemma find_byte_app (pre x rest : bytes) (c : byte) :
  ~ In c x ->
  find_byte (pre ++ x ++ c :: rest) c (len pre) = len pre + len x.
Proof.
  intros Hnot. pose proof (len_nonneg pre) as Hpre.
  unfold find_byte, find_start.
  destruct (Z.ltb_spec (len pre) 0); [lia|].
  unfold len at 1. rewrite Nat2Z.id.
  rewrite skipn_app, skipn_all, Nat.sub_diag. cbn [skipn app].
  generalize (len pre). clear Hpre H pre.
  induction x as [|d x IH]; intros i; cbn [app index_from].
  - rewrite (Byte.byte_dec_lb (eq_refl c)). unfold len. cbn. lia.
  - destruct (Byte.eqb d c) eqn:E.
    + apply Byte.byte_dec_bl in E. subst d. exfalso. apply Hnot. now left.
    + rewrite IH by (intros Hin; apply Hnot; now right).
      rewrite len_cons. lia.
Qed.

(** The same when nothing equal to [c] follows [pre]. *)
Lemma find_byte_app_none (pre x : bytes) (c : byte) :
  ~ In c x -> find_byte (pre ++ x) c (len pre) = -1.
Proof.
  intros Hnot. pose proof (len_nonneg pre) as Hpre.
  unfold find_byte, find_start.
  destruct (Z.ltb_spec (len pre) 0); [lia|].
  unfold len at 1. rewrite Nat2Z.id.
  rewrite skipn_app, skipn_all, Nat.sub_diag. cbn [skipn app].
  destruct (index_from_spec c x (len pre)) as [[H' _] | (k & t & _ & Hs & _)];
    [exact H'|].
  exfalso. apply Hnot. rewrite <- (firstn_skipn k x), Hs.
  apply in_or_app. right. now left.
Qed.

End SearchFacts.

(** ** More about the codec *)

Section CodecExtras.

(** X1.  For every filename, byte count and configuration, the line built
    by [create_file_start_delimiter] passes [is_file_start_delimiter] under
    the same configuration. *)
Theorem created_start_delimiter_is_start (filename : str) (byte_count : Z)
    (config : option BundlerConfig) :
  is_file_start_delimiter
    (create_file_start_delimiter filename byte_count config) config = true.
Proof.
  unfold is_file_start_delimiter, create_file_start_delimiter.
  set (c := or_default config).
  set (rest := str_of_int byte_count ++ file_start_bytes_suffix c).
  apply andb_true_iff. split; [apply andb_true_iff; split|].
  - apply startswith_app.
  - unfold contains. apply negb_true_iff, Z.eqb_neq. unfold find.
    apply (find_from_found _ _ 0 (length (file_start_prefix c ++ filename)));
      [lia|].
    rewrite (app_assoc (file_start_prefix c)).
    rewrite skipn_app, skipn_all, Nat.sub_diag. cbn [skipn app].
    apply startswith_app.
  - unfold rest. rewrite !app_assoc. apply endswith_app.
Qed.

(** X2.  An end delimiter names exactly one file: the line created for
    [filename] is the expected end delimiter of [other] if and only if the
    two filenames are equal. *)
Theorem end_delimiter_names_one_file (filename other : str)
    (config : option BundlerConfig) :
  is_file_end_delimiter (create_file_end_delimiter filename config) other
    config = true
  <-> filename = other.
Proof.
  rewrite is_file_end_delimiter_spec. unfold create_file_end_delimiter.
  split.
  - intros H. apply app_inv_head in H. now apply app_inv_tail in H.
  - now intros ->.
Qed.



(** X4.  When [parse_file_start_delimiter] succeeds and the first middle
    fragment (not empty) starts at or after the end of the prefix, the line
    reads prefix, parsed filename, middle fragment, and the prefix followed
    by the parsed filename does not contain the middle fragment: the
    filename returned is the text up to the first middle fragment. *)
Theorem parsed_filename_precedes_first_middle (line filename : str)
    (byte_count : Z) (config : option BundlerConfig) :
  parse_file_start_delimiter line config = Ok (filename, byte_count) ->
  file_start_middle (or_default config) <> [] ->
  len (file_start_prefix (or_default config))
  <= find line (file_start_middle (or_default config)) ->
  (exists rest,
     line = file_start_prefix (or_default config) ++ filename
            ++ file_start_middle (or_default config) ++ rest)
  /\ contains (file_start_middle (or_default config))
       (file_start_prefix (or_default config) ++ filename) = false.
Proof.
  intros Hp Hne Hpos.
  pose proof (parse_ok_is_start _ _ _ Hp) as Hs.
  set (c := or_default config) in *.
  assert (Hpre : startswith line (file_start_prefix c) = true).
  { unfold is_file_start_delimiter in Hs. fold c in Hs.
    apply andb_true_iff in Hs as [Hs _]. now apply andb_true_iff in Hs. }
  assert (Hm : find line (file_start_middle c) <> -1).
  { pose proof (len_nonneg (file_start_prefix c)). lia. }
  destruct (find_from_found_at _ line 0 Hm ltac:(lia))
    as (k & Hk & Hle & Hat & Hmin).
  fold (find line (file_start_middle c)) in Hk.
  assert (Hname :
    filename = slice line (len (file_start_prefix c))
                 (find line (file_start_middle c))).
  { revert Hp. unfold parse_file_start_delimiter.
    change (is_file_start_delimiter line (Some (or_default config)))
      with (is_file_start_delimiter line config).
    fold c. rewrite Hs. cbn [negb].
    destruct (Z.eqb_spec (find line (file_start_middle c)) (-1)); [lia|].
    destruct (_ =? -1); [discriminate|].
    destruct (int _); cbn; [|discriminate].
    now intros [= <- _]. }
  apply startswith_iff in Hpre as [r Hr].
  apply startswith_iff in Hat as [rest Hrest].
  set (p := length (file_start_prefix c)) in *.
  assert (Hkp : (p <= k)%nat).
  { unfold len in Hpos. fold p in Hpos. lia. }
  assert (Hf : filename = firstn (k - p) r).
  { rewrite Hname, Hk.
    replace (0 + Z.of_nat k) with (len (file_start_prefix c) + Z.of_nat (k - p))
      by (unfold len; fold p; lia).
    rewrite slice_in_range;
      [| apply len_nonneg | lia | unfold len in *; fold p; lia].
    unfold len. fold p. rewrite !Nat2Z.id, Hr.
    f_equal. unfold p.
    rewrite skipn_app, skipn_all, Nat.sub_diag. reflexivity. }
  assert (Hfirst : firstn k line = file_start_prefix c ++ filename).
  { rewrite Hf, Hr, firstn_app. fold p.
    rewrite firstn_all2 by (unfold p; lia). reflexivity. }
  assert (Hline : line = file_start_prefix c ++ filename
                         ++ file_start_middle c ++ rest).
  { rewrite <- (firstn_skipn k line) at 1.
    rewrite Hfirst, Hrest. now rewrite <- app_assoc. }
  split; [now exists rest|].
  unfold contains. apply negb_false_iff, Z.eqb_eq.
  destruct (Z.eq_dec (find (file_start_prefix c ++ filename)
                        (file_start_middle c)) (-1)) as [E | E]; [exact E|].
  exfalso.
  destruct (find_from_found_at _ _ 0 E ltac:(lia))
    as (j & _ & Hjle & Hjat & _).
  assert (Hlen : length (file_start_prefix c ++ filename) = k).
  { rewrite Hf, length_app, length_firstn. fold p.
    apply (f_equal (@length Z)) in Hr. rewrite length_app in Hr. fold p in Hr.
    lia. }
  assert (Hj : (j < k)%nat).
  { destruct (Nat.eq_dec j k) as [-> | ?]; [|lia].
    rewrite <- Hlen, skipn_all in Hjat.
    destruct (file_start_middle c); [congruence | discriminate]. }
  pose proof (Hmin j Hj) as Hno.
  rewrite Hline, app_assoc, skipn_app in Hno.
  replace (j - length (file_start_prefix c ++ filename))%nat with 0%nat
    in Hno by lia.
  cbn [skipn] in Hno.
  rewrite (startswith_app_l _ _ _ Hjat) in Hno. discriminate.
Qed.

Lemma parsed_filename_precedes_first_middle_witness :
  (exists rest,
     u "--- FILE: a (5 bytes) ---"
     = file_start_prefix (or_default None) ++ u "a"
       ++ file_start_middle (or_default None) ++ rest)
  /\ contains (file_start_middle (or_default None))
       (file_start_prefix (or_default None) ++ u "a") = false.
Proof.
  apply (parsed_filename_precedes_first_middle
           (u "--- FILE: a (5 bytes) ---") (u "a") 5 None).
  - reflexivity.
  - discriminate.
  - vm_compute. congruence.
Defined.

End CodecExtras.

(** ** More about the extractor *)

Section ExtractorExtras.

Lemma in_firstn {A} (x : A) (n : nat) (l : list A) :
  In x (firstn n l) -> In x l.
Proof.
  intros H. rewrite <- (firstn_skipn n l). apply in_or_app. now left.
Qed.

(** X5.  For every buffer and start position, the line that
    [find_next_line_end] delimits contains no newline byte, the line end is
    at most the buffer length, and a line end inside the buffer is on a
    newline byte. *)
Theorem line_has_no_newline (content_bytes : bytes) (pos : Z) :
  find_next_line_end content_bytes pos <= len content_bytes
  /\ ~ In newline
         (slice content_bytes pos (find_next_line_end content_bytes pos))
  /\ (find_next_line_end content_bytes pos < len content_bytes ->
      slice content_bytes (find_next_line_end content_bytes pos)
        (find_next_line_end content_bytes pos + 1) = [newline]).
Proof.
  split; [apply find_next_line_end_le_len|].
  pose proof (len_nonneg content_bytes) as Hlen.
  unfold find_next_line_end, find_byte.
  set (s := find_start content_bytes pos).
  assert (Hs : 0 <= s).
  { unfold s, find_start. destruct (Z.ltb_spec pos 0); lia. }
  assert (Hlo : s <= len content_bytes ->
                adjust_index (len content_bytes) pos = s).
  { unfold s, find_start, adjust_index. destruct (Z.ltb_spec pos 0); lia. }
  destruct (index_from_spec newline (skipn (Z.to_nat s) content_bytes) s)
    as [[H Hnot] | (k & t & H & Hk & Hnot)]; rewrite H.
  - change (negb (-1 =? -1)) with false. cbv iota. split; [|lia].
    unfold slice. intros Hin. apply in_firstn in Hin.
    destruct (Z.le_gt_cases s (len content_bytes)) as [Hle | Hgt].
    + rewrite (Hlo Hle) in Hin. contradiction.
    + assert (E : adjust_index (len content_bytes) pos = len content_bytes).
      { revert Hgt. unfold s, find_start, adjust_index.
        destruct (Z.ltb_spec pos 0); lia. }
      rewrite E in Hin. unfold len in Hin at 1.
      rewrite Nat2Z.id, skipn_all in Hin. contradiction.
  - destruct (Z.eqb_spec (s + Z.of_nat k) (-1)); [lia|]. cbn [negb].
    rewrite skipn_skipn in Hk.
    assert (Hin : s + Z.of_nat k < len content_bytes).
    { apply (f_equal (@length byte)) in Hk. rewrite length_skipn in Hk.
      cbn in Hk. unfold len. lia. }
    split.
    + unfold slice. rewrite (Hlo ltac:(lia)).
      rewrite adjust_index_in_range by lia.
      replace (Z.to_nat (s + Z.of_nat k - s)) with k by lia. exact Hnot.
    + intros _. rewrite (slice_in_range content_bytes (s + Z.of_nat k) 1)
        by lia.
      replace (Z.to_nat (s + Z.of_nat k)) with (k + Z.to_nat s)%nat by lia.
      rewrite Hk. reflexivity.
Qed.

(** X6.  [extract_next_file] never raises: for every buffer, position and
    configuration it returns a pair; and from a position at most the buffer
    length the cursor it returns is at most one past the end of the
    buffer. *)
Theorem extract_next_file_never_raises (content_bytes : bytes) (pos : Z)
    (config : option BundlerConfig) :
  exists file_data new_pos,
    extract_next_file content_bytes pos config = Ok (file_data, new_pos)
    /\ (pos <= len content_bytes -> new_pos <= len content_bytes + 1).
Proof.
  destruct (extract_next_file_total content_bytes pos config)
    as (file_data & new_pos & H).
  exists file_data, new_pos. split; [exact H|].
  intros Hpos. now apply (extract_next_file_upper _ _ _ _ _ Hpos H).
Qed.



(** X8.  A non-empty line that is not a usable start delimiter is skipped
    whole: when the line at [pos] does not decode, or decodes to a text
    that fails [is_file_start_delimiter], or whose parse raises,
    [extract_next_file] returns no record and the cursor one past the line
    end. *)
Theorem unusable_line_is_skipped (content_bytes : bytes) (pos : Z)
    (config : option BundlerConfig) :
  find_next_line_end content_bytes pos <> pos ->
  (forall line,
     decode (slice content_bytes pos (find_next_line_end content_bytes pos))
     = Ok line ->
     is_file_start_delimiter line config = false
     \/ exists e, parse_file_start_delimiter line config = Raise e) ->
  extract_next_file content_bytes pos config
  = Ok (None, find_next_line_end content_bytes pos + 1).
Proof.
  intros Hne Hbad.
  destruct (extract_next_file_cases content_bytes pos config)
    as [[He _] | [[_ H] | [_ H]]]; [contradiction | exact H |].
  destruct H as (line & f & n & text & p & q & D & Hs & Hp & _).
  destruct (Hbad line D) as [Hs' | [e He]]; congruence.
Qed.

Lemma unusable_line_is_skipped_witness :
  extract_next_file ([xff; xfe] ++ nl ++ b "rest") 0 None = Ok (None, 3)
  /\ extract_next_file (b "--- FILE: x (abc bytes) ---" ++ nl ++ b "body" ++ nl)
       0 None = Ok (None, 28).
Proof.
  split.
  - apply (unusable_line_is_skipped ([xff; xfe] ++ nl ++ b "rest") 0 None).
    + vm_compute. congruence.
    + intros line H. vm_compute in H. discriminate.
  - apply (unusable_line_is_skipped
             (b "--- FILE: x (abc bytes) ---" ++ nl ++ b "body" ++ nl) 0 None).
    + vm_compute. congruence.
    + intros line H. vm_compute in H. injection H as <-.
      right. eexists. reflexivity.
Defined.

(** X9.  From a position at most the buffer length, when the start line at
    [pos], if any, declares a non-negative byte count, [extract_next_file]
    never moves the cursor back, and it leaves the cursor where it was only
    when it returns no record and the line at [pos] is empty. *)
Theorem cursor_advances_on_nonnegative_count (content_bytes : bytes)
    (pos new_pos : Z) (config : option BundlerConfig)
    (file_data : option (str * str)) :
  pos <= len content_bytes ->
  (forall line filename byte_count,
     decode (slice content_bytes pos (find_next_line_end content_bytes pos))
     = Ok line ->
     parse_file_start_delimiter line config = Ok (filename, byte_count) ->
     0 <= byte_count) ->
  extract_next_file content_bytes pos config = Ok (file_data, new_pos) ->
  pos <= new_pos
  /\ (new_pos = pos ->
      file_data = None /\ find_next_line_end content_bytes pos = pos).
Proof.
  intros Hpos Hcount Hr.
  pose proof (find_next_line_end_ge content_bytes pos Hpos) as Hge.
  destruct (extract_next_file_cases content_bytes pos config)
    as [[He H] | [[Hne H] | [Hne H]]].
  - rewrite H in Hr. injection Hr as <- <-. split; [lia | auto].
  - rewrite H in Hr. injection Hr as <- <-. split; lia.
  - destruct H as (line & f & n & text & p & q & D & _ & Hp & Hx & Hk & H).
    rewrite H in Hr. injection Hr as <- <-.
    pose proof (Hcount line f n D Hp).
    apply extract_file_content_at_position_ok in Hx as [-> Hx].
    pose proof (skip_end_delimiter_range _ _ _ _ _ Hx Hk). split; lia.
Qed.

Lemma cursor_advances_on_nonnegative_count_witness :
  0 <= 55
  /\ (55 = 0 ->
      Some (u "a.txt", u "hello") = None
      /\ find_next_line_end one_record 0 = 0).
Proof.
  apply (cursor_advances_on_nonnegative_count one_record 0 55 None
           (Some (u "a.txt", u "hello"))).
  - vm_compute. congruence.
  - intros line f n D Hp. vm_compute in D. injection D as <-.
    vm_compute in Hp. injection Hp as _ <-. lia.
  - reflexivity.
Defined.

End ExtractorExtras.

(** ** UTF-8: decoding undoes encoding *)

Section Utf8.

Lemma code_byte_of (x : Z) : 0 <= x < 256 -> code (byte_of x) = x.
Proof.
  intros Hx. unfold code, byte_of.
  destruct (Byte.of_N (Z.to_N x)) as [y|] eqn:E.
  - apply Byte.to_of_N in E. rewrite E. lia.
  - apply Byte.of_N_None_iff in E. lia.
Qed.

Lemma utf8_decode_cons (b0 : byte) (t0 : bytes) :
  utf8_decode (b0 :: t0)
  = let c0 := code b0 in
    if c0 <? 128 then option_map (cons c0) (utf8_decode t0)
    else if (194 <=? c0) && (c0 <=? 223) then
      match t0 with
      | b1 :: t1 =>
        let c1 := code b1 in
        if continuation c1
        then option_map (cons ((c0 - 192) * 64 + (c1 - 128))) (utf8_decode t1)
        else None
      | _ => None
      end
    else if (224 <=? c0) && (c0 <=? 239) then
      match t0 with
      | b1 :: b2 :: t2 =>
        let c1 := code b1 in
        let c2 := code b2 in
        if second_of_three c0 c1 && continuation c2
        then option_map
               (cons ((c0 - 224) * 4096 + (c1 - 128) * 64 + (c2 - 128)))
               (utf8_decode t2)
        else None
      | _ => None
      end
    else if (240 <=? c0) && (c0 <=? 244) then
      match t0 with
      | b1 :: b2 :: b3 :: t3 =>
        let c1 := code b1 in
        let c2 := code b2 in
        let c3 := code b3 in
        if second_of_four c0 c1 && continuation c2 && continuation c3
        then option_map
               (cons ((c0 - 240) * 262144 + (c1 - 128) * 4096
                      + (c2 - 128) * 64 + (c3 - 128)))
               (utf8_decode t3)
        else None
      | _ => None
      end
    else None.
Proof. reflexivity. Qed.

Ltac decide_tests :=
  repeat match goal with
         | |- context [?a <? ?b] => destruct (Z.ltb_spec a b); try lia
         | |- context [?a <=? ?b] => destruct (Z.leb_spec a b); try lia
         | |- context [?a =? ?b] => destruct (Z.eqb_spec a b); try lia
         end.

Ltac euclid := Z.to_euclidean_division_equations; lia.

Lemma utf8_decode_encode_point (c : Z) (bs rest : bytes) :
  utf8_encode_point c = Some bs ->
  utf8_decode (bs ++ rest) = option_map (cons c) (utf8_decode rest).
Proof.
  unfold utf8_encode_point.
  destruct (Z.ltb_spec c 0); [discriminate|].
  destruct (Z.ltb_spec c 128).
  { intros E. assert (bs = [byte_of c]) as -> by congruence. clear E.
    cbn [app]. rewrite utf8_decode_cons. cbv beta iota zeta.
    rewrite code_byte_of by lia. decide_tests. reflexivity. }
  destruct (Z.ltb_spec c 2048).
  { intros E.
    assert (bs = [byte_of (192 + c / 64); byte_of (128 + c mod 64)]) as ->
      by congruence.
    clear E. cbn [app]. rewrite utf8_decode_cons. cbv beta iota zeta.
    rewrite !code_byte_of by euclid.
    unfold continuation.
    assert (194 <= 192 + c / 64 <= 223) by euclid.
    assert (128 <= 128 + c mod 64 <= 191) by euclid.
    replace ((192 + c / 64 - 192) * 64 + (128 + c mod 64 - 128)) with c
      by euclid.
    decide_tests. reflexivity. }
  destruct (Z.leb_spec 55296 c); destruct (Z.leb_spec c 57343);
    cbn [andb]; try discriminate.
  all: destruct (Z.ltb_spec c 65536).
  all: try (destruct (Z.ltb_spec c 1114112); [|discriminate]).
  all: intros E.
  all: first
    [ assert (bs = [byte_of (224 + c / 4096);
                    byte_of (128 + (c / 64) mod 64);
                    byte_of (128 + c mod 64)]) as -> by congruence
    | assert (bs = [byte_of (240 + c / 262144);
                    byte_of (128 + (c / 4096) mod 64);
                    byte_of (128 + (c / 64) mod 64);
                    byte_of (128 + c mod 64)]) as -> by congruence ].
  all: clear E; cbn [app]; rewrite utf8_decode_cons; cbv beta iota zeta.
  all: rewrite !code_byte_of by euclid.
  all: unfold second_of_three, second_of_four, continuation.
  all: try replace ((224 + c / 4096 - 224) * 4096
                    + (128 + (c / 64) mod 64 - 128) * 64
                    + (128 + c mod 64 - 128)) with c by euclid.
  all: try replace ((240 + c / 262144 - 240) * 262144
                    + (128 + (c / 4096) mod 64 - 128) * 4096
                    + (128 + (c / 64) mod 64 - 128) * 64
                    + (128 + c mod 64 - 128)) with c by euclid.
  all: try (assert (224 <= 224 + c / 4096 <= 239) by euclid).
  all: try (assert (240 <= 240 + c / 262144 <= 244) by euclid).
  all: assert (128 <= 128 + c mod 64 <= 191) by euclid.
  all: assert (128 <= 128 + (c / 64) mod 64 <= 191) by euclid.
  all: assert (128 <= 128 + (c / 4096) mod 64 <= 191) by euclid.
  all: repeat match goal with
         | |- context [?a <? ?b] => destruct (Z.ltb_spec a b); try lia
         | |- context [?a <=? ?b] => destruct (Z.leb_spec a b); try lia
         | |- context [?a =? ?b] => destruct (Z.eqb_spec a b); try euclid
         end.
  all: cbn [andb]; try reflexivity.
Qed.



Lemma utf8_encode_app (s t : str) :
  utf8_encode (s ++ t)
  = match utf8_encode s, utf8_encode t with
    | Some x, Some y => Some (x ++ y)
    | _, _ => None
    end.
Proof.
  induction s as [|c s IH]; cbn [app utf8_encode].
  - destruct (utf8_encode t); reflexivity.
  - rewrite IH. destruct (utf8_encode_point c); [|reflexivity].
    destruct (utf8_encode s); [|reflexivity].
    destruct (utf8_encode t); [|reflexivity].
    now rewrite app_assoc.
Qed.

(** Decoding undoes encoding. *)
Lemma utf8_decode_encode (s : str) (bs : bytes) :
  utf8_encode s = Some bs -> utf8_decode bs = Some s.
Proof.
  revert bs. induction s as [|c s IH]; intros bs; cbn [utf8_encode].
  - now intros [= <-].
  - destruct (utf8_encode_point c) as [x|] eqn:Ec; [|discriminate].
    destruct (utf8_encode s) as [y|]; [|discriminate].
    intros E. assert (bs = x ++ y) as -> by congruence.
    rewrite (utf8_decode_encode_point _ _ _ Ec), (IH y eq_refl).
    reflexivity.
Qed.

(** The encoding of a code point other than 10 has no newline byte. *)
Lemma utf8_encode_point_no_newline (c : Z) (bs : bytes) :
  utf8_encode_point c = Some bs -> c <> 10 -> ~ In newline bs.
Proof.
  intros E Hc Hin.
  assert (Hall : Forall (fun x => code x <> 10) bs).
  { revert E. unfold utf8_encode_point.
    destruct (Z.ltb_spec c 0); [discriminate|].
    destruct (Z.ltb_spec c 128).
    { intros E. assert (bs = [byte_of c]) as -> by congruence.
      repeat constructor. rewrite code_byte_of; lia. }
    destruct (Z.ltb_spec c 2048).
    { intros E.
      assert (bs = [byte_of (192 + c / 64); byte_of (128 + c mod 64)])
        as -> by congruence.
      repeat constructor;
        rewrite code_byte_of; Z.to_euclidean_division_equations; lia. }
    destruct ((55296 <=? c) && (c <=? 57343)); [discriminate|].
    destruct (Z.ltb_spec c 65536).
    { intros E.
      assert (bs = [byte_of (224 + c / 4096);
                    byte_of (128 + (c / 64) mod 64);
                    byte_of (128 + c mod 64)]) as -> by congruence.
      repeat constructor;
        rewrite code_byte_of; Z.to_euclidean_division_equations; lia. }
    destruct (Z.ltb_spec c 1114112); [|discriminate].
    intros E.
    assert (bs = [byte_of (240 + c / 262144);
                  byte_of (128 + (c / 4096) mod 64);
                  byte_of (128 + (c / 64) mod 64);
                  byte_of (128 + c mod 64)]) as -> by congruence.
    repeat constructor;
      rewrite code_byte_of; Z.to_euclidean_division_equations; lia. }
  rewrite Forall_forall in Hall. apply (Hall newline Hin). reflexivity.
Qed.

Lemma utf8_encode_no_newline (s : str) (bs : bytes) :
  utf8_encode s = Some bs -> ~ In 10 s -> ~ In newline bs.
Proof.
  revert bs. induction s as [|c s IH]; intros bs; cbn [utf8_encode].
  - intros E _. assert (bs = []) as -> by congruence. intros [].
  - destruct (utf8_encode_point c) as [x|] eqn:Ec; [|discriminate].
    destruct (utf8_encode s) as [y|]; [|discriminate].
    intros E Hnot. assert (bs = x ++ y) as -> by congruence.
    intros Hin. apply in_app_or in Hin as [Hin | Hin].
    + apply (utf8_encode_point_no_newline c x Ec); [|exact Hin].
      intros ->. apply Hnot. now left.
    + apply (IH y eq_refl); [|exact Hin].
      intros H. apply Hnot. now right.
Qed.

(** Text made of decimal digits can be encoded. *)
Lemma utf8_encode_digits (s : str) :
  Forall (fun c => 48 <= c <= 57) s -> exists bs, utf8_encode s = Some bs.
Proof.
  induction 1 as [|c s Hc _ [bs IH]]; cbn [utf8_encode]; [now exists []|].
  rewrite IH. unfold utf8_encode_point.
  destruct (Z.ltb_spec c 0); [lia|].
  destruct (Z.ltb_spec c 128); [|lia]. eauto.
Qed.

End Utf8.

(** ** An end marker that is present *)

Section PresentMarker.

(** The line that starts at the end of [pre] in [pre ++ x ++ tail], when
    [x] has no newline and [tail] is empty or starts with one. *)
Lemma find_next_line_end_app (pre x tail : bytes) :
  ~ In newline x ->
  tail = [] \/ (exists rest, tail = newline :: rest) ->
  find_next_line_end (pre ++ x ++ tail) (len pre) = len pre + len x.
Proof.
  intros Hnot [-> | [rest ->]]; unfold find_next_line_end.
  - rewrite app_nil_r, (find_byte_app_none pre x newline Hnot).
    cbn. apply len_app.
  - rewrite (find_byte_app pre x rest newline Hnot).
    pose proof (len_nonneg pre). pose proof (len_nonneg x).
    destruct (Z.eqb_spec (len pre + len x) (-1)); [lia | reflexivity].
Qed.

Lemma skip_end_delimiter_present (pre sep marker tail : bytes)
    (filename : str) (config : option BundlerConfig) :
  sep = [] \/ sep = [newline] ->
  decode marker = Ok (create_file_end_delimiter filename config) ->
  marker <> [] ->
  ~ In newline marker ->
  tail = [] \/ (exists rest, tail = newline :: rest) ->
  skip_end_delimiter (pre ++ sep ++ marker ++ tail) (len pre) filename config
  = Ok (len pre + len sep + len marker + 1).
Proof.
  intros Hsep D Hne Hnot Htail.
  set (B := pre ++ sep ++ marker ++ tail).
  pose proof (len_nonneg pre) as Hpre. pose proof (len_nonneg tail) as Htl.
  pose proof (len_nonneg sep) as Hsp.
  assert (Hm : 0 < len marker).
  { destruct marker; [congruence|]. rewrite len_cons.
    pose proof (len_nonneg marker). lia. }
  assert (HlenB : len B = len pre + len sep + len marker + len tail).
  { unfold B. rewrite !len_app. lia. }
  assert (Hpos1 :
    (if bytes_eqb (slice B (len pre) (len pre + 1)) [newline]
     then len pre + 1 else len pre) = len pre + len sep).
  { destruct Hsep as [-> | ->].
    - destruct marker as [|m0 marker']; [congruence|].
      assert (E : slice B (len pre) (len pre + 1) = [m0]).
      { unfold B. cbn [app].
        change (pre ++ m0 :: marker' ++ tail)
          with (pre ++ [m0] ++ marker' ++ tail).
        apply (slice_app_middle pre [m0]). }
      rewrite E. cbn [bytes_eqb].
      destruct (Byte.eqb m0 newline) eqn:Em.
      + apply Byte.byte_dec_bl in Em. subst m0. exfalso. apply Hnot. now left.
      + cbn [andb]. unfold len. cbn [length]. lia.
    - assert (E : slice B (len pre) (len pre + 1) = [newline]).
      { unfold B. apply (slice_app_middle pre [newline]). }
      rewrite E. cbn [bytes_eqb]. rewrite (Byte.byte_dec_lb (eq_refl newline)).
      cbn [andb]. unfold len. cbn [length]. lia. }
  assert (HB : B = (pre ++ sep) ++ marker ++ tail).
  { unfold B. now rewrite <- app_assoc. }
  assert (Hle : find_next_line_end B (len pre + len sep)
                = len pre + len sep + len marker).
  { rewrite HB, <- len_app. rewrite find_next_line_end_app by assumption.
    reflexivity. }
  assert (Hslice : slice B (len pre + len sep)
                     (len pre + len sep + len marker) = marker).
  { rewrite HB, <- len_app. apply slice_app_middle. }
  destruct (skip_end_delimiter_cases B (len pre) filename config)
    as [[Hge _] | [_ [pos1 [Hp1 H]]]]; [lia|].
  rewrite Hpos1 in Hp1. subst pos1. rewrite Hle, Hslice in H.
  destruct H as [[_ [_ H]] | [Hcontra _]]; [exact H|].
  exfalso. apply Hcontra. split; [lia | exact D].
Qed.

(** X10.  When the expected end marker is present after the payload,
    directly at [pos] or after one separator newline, and is followed by a
    newline or by the end of the buffer, [skip_end_delimiter] returns the
    position one past the end of the marker line: past its newline, or one
    past the end of the buffer when the marker ends the buffer. *)
Theorem skip_end_delimiter_consumes_marker (pre sep marker tail : bytes)
    (filename : str) (config : option BundlerConfig) :
  sep = [] \/ sep = [newline] ->
  decode marker = Ok (create_file_end_delimiter filename config) ->
  marker <> [] ->
  ~ In newline marker ->
  tail = [] \/ (exists rest, tail = newline :: rest) ->
  skip_end_delimiter (pre ++ sep ++ marker ++ tail) (len pre) filename config
  = Ok (len pre + len sep + len marker + 1).
Proof. apply skip_end_delimiter_present. Qed.

Lemma skip_end_delimiter_consumes_marker_witness :
  skip_end_delimiter
    (b "hello" ++ [newline] ++ b "--- END: a.txt ---" ++ newline :: b "next")
    (len (b "hello")) (u "a.txt") None
  = Ok (len (b "hello") + len [newline] + len (b "--- END: a.txt ---") + 1).
Proof.
  apply (skip_end_delimiter_consumes_marker (b "hello") [newline]
           (b "--- END: a.txt ---") (newline :: b "next") (u "a.txt") None).
  - now right.
  - reflexivity.
  - discriminate.
  - vm_compute. intuition discriminate.
  - right. now exists (b "next").
Defined.

End PresentMarker.

(** ** From the packed text back to the record *)

Section RoundTrip.

Lemma encode_ok (s : str) (bs : bytes) :
  encode s = Ok bs <-> utf8_encode s = Some bs.
Proof.
  unfold encode. destruct (utf8_encode s); split; congruence.
Qed.

Lemma utf8_encode_app_inv (s t : str) (bs : bytes) :
  utf8_encode (s ++ t) = Some bs ->
  exists x y,
    utf8_encode s = Some x /\ utf8_encode t = Some y /\ bs = x ++ y.
Proof.
  rewrite utf8_encode_app.
  destruct (utf8_encode s) as [x|]; [|discriminate].
  destruct (utf8_encode t) as [y|]; [|discriminate].
  intros E. exists x, y. repeat split. congruence.
Qed.

Lemma utf8_encode_nonempty (s : str) (bs : bytes) :
  utf8_encode s = Some bs -> s <> [] -> bs <> [].
Proof.
  intros E Hs ->. apply utf8_decode_encode in E. cbn in E. congruence.
Qed.

Lemma decode_encoded (s : str) (bs : bytes) :
  utf8_encode s = Some bs -> decode bs = Ok s.
Proof.
  intros E. unfold decode. now rewrite (utf8_decode_encode _ _ E).
Qed.

(** The start line written for a count [n >= 0] parses back, under the
    default configuration. *)
Lemma parse_created_default (f : str) (n : Z) :
  0 <= n ->
  contains (file_start_middle default_config)
    (file_start_prefix default_config ++ f) = false ->
  contains (file_start_bytes_suffix default_config)
    (file_start_prefix default_config ++ f) = false ->
  parse_file_start_delimiter
    (create_file_start_delimiter f n (Some default_config)) None
  = Ok (f, n).
Proof.
  intros Hn Hmid Hsuf.
  unfold create_file_start_delimiter. cbn [or_default].
  change (parse_file_start_delimiter ?l None)
    with (parse_file_start_delimiter l (Some default_config)).
  apply parse_assembled_line.
  - now apply find_middle_default.
  - apply find_suffix_default; [exact Hsuf|].
    unfold str_of_int. destruct (Z.ltb_spec n 0); [lia|].
    now apply decimal_digits_are_digits.
  - now apply int_str_of_int.
Qed.

Lemma str_of_int_digits (n : Z) :
  0 <= n -> Forall (fun c => 48 <= c <= 57) (str_of_int n).
Proof.
  intros Hn. unfold str_of_int. destruct (Z.ltb_spec n 0); [lia|].
  now apply decimal_digits_are_digits.
Qed.

(** The delimiters of the default configuration are single lines when the
    filename is. *)
Lemma start_delimiter_no_newline (f : str) (n : Z) :
  0 <= n -> ~ In 10 f ->
  ~ In 10 (create_file_start_delimiter f n (Some default_config)).
Proof.
  intros Hn Hf. unfold create_file_start_delimiter. cbn [or_default].
  rewrite !in_app_iff. intros [H | [H | [H | [H | H]]]].
  - vm_compute in H. intuition discriminate.
  - contradiction.
  - vm_compute in H. intuition discriminate.
  - pose proof (str_of_int_digits n Hn) as Hd. rewrite Forall_forall in Hd.
    specialize (Hd 10 H). lia.
  - vm_compute in H. intuition discriminate.
Qed.

Lemma end_delimiter_no_newline (f : str) :
  ~ In 10 f -> ~ In 10 (create_file_end_delimiter f (Some default_config)).
Proof.
  intros Hf. unfold create_file_end_delimiter. cbn [or_default].
  rewrite !in_app_iff. intros [H | [H | H]].
  - vm_compute in H. intuition discriminate.
  - contradiction.
  - vm_compute in H. intuition discriminate.
Qed.

Lemma extract_packed_record (pre rest bs ec : bytes) (f c : str) :
  utf8_encode c = Some ec ->
  utf8_encode (content_part f c (len ec) default_config) = Some bs ->
  ~ In 10 f ->
  contains (file_start_middle default_config)
    (file_start_prefix default_config ++ f) = false ->
  contains (file_start_bytes_suffix default_config)
    (file_start_prefix default_config ++ f) = false ->
  extract_next_file (pre ++ bs ++ rest) (len pre) None
  = Ok (Some (f, c), len pre + len bs).
Proof.
  intros Hc Hbs Hf Hmid Hsuf.
  pose proof (len_nonneg ec) as Hn.
  unfold content_part in Hbs. cbv zeta in Hbs.
  set (L := create_file_start_delimiter f (len ec) (Some default_config))
    in *.
  set (E := create_file_end_delimiter f (Some default_config)) in *.
  apply utf8_encode_app_inv in Hbs as (es & b1 & HL & Hbs & ->).
  apply utf8_encode_app_inv in Hbs as (n1 & b2 & Hn1 & Hbs & ->).
  apply utf8_encode_app_inv in Hbs as (ec' & b3 & Hc' & Hbs & ->).
  apply utf8_encode_app_inv in Hbs as (n2 & b4 & Hn2 & Hbs & ->).
  apply utf8_encode_app_inv in Hbs as (ee & n3 & HE & Hn3 & ->).
  assert (ec' = ec) as -> by congruence.
  assert (n1 = [newline]) as -> by (vm_compute in Hn1; injection Hn1 as <-; reflexivity).
  assert (n2 = [newline]) as -> by (vm_compute in Hn2; injection Hn2 as <-; reflexivity).
  assert (n3 = [newline]) as -> by (vm_compute in Hn3; injection Hn3 as <-; reflexivity).
  clear Hn1 Hn2 Hn3 Hc'.
  (* the two delimiter lines *)
  assert (HLnl : ~ In newline es).
  { apply (utf8_encode_no_newline L es HL).
    now apply start_delimiter_no_newline. }
  assert (HEnl : ~ In newline ee).
  { apply (utf8_encode_no_newline E ee HE).
    now apply end_delimiter_no_newline. }
  assert (HLne : es <> []).
  { apply (utf8_encode_nonempty L es HL). discriminate. }
  assert (HEne : ee <> []).
  { apply (utf8_encode_nonempty E ee HE). discriminate. }
  pose proof (len_nonneg pre) as Hpre. pose proof (len_nonneg es) as Hes.
  assert (H1 : len [newline] = 1) by reflexivity.
  assert (Hes0 : 0 < len es).
  { destruct es; [congruence|]. rewrite len_cons.
    pose proof (len_nonneg es). lia. }
  set (B := pre ++ (es ++ [newline] ++ ec ++ [newline] ++ ee ++ [newline])
            ++ rest).
  (* the start line *)
  assert (Hle : find_next_line_end B (len pre) = len pre + len es).
  { assert (HB : B = pre ++ es
                     ++ (newline :: ec ++ [newline] ++ ee ++ [newline] ++ rest)).
    { unfold B. repeat (rewrite <- app_assoc; cbn [app]). reflexivity. }
    rewrite HB. apply find_next_line_end_app; [exact HLnl|].
    right. eauto. }
  assert (Hline : slice B (len pre) (len pre + len es) = es).
  { assert (HB : B = pre ++ es
                     ++ (newline :: ec ++ [newline] ++ ee ++ [newline] ++ rest)).
    { unfold B. repeat (rewrite <- app_assoc; cbn [app]). reflexivity. }
    rewrite HB. apply slice_app_middle. }
  (* the payload *)
  assert (Hx : extract_file_content_at_position B (len pre + len es + 1) f
                 (len ec)
               = Ok (c, len pre + len es + 1 + len ec)).
  { unfold extract_file_content_at_position. rewrite Z.gtb_ltb.
    assert (HlenB : len B = len pre + len es + 1 + len ec + 1 + len ee + 1
                            + len rest).
    { unfold B. rewrite !len_app, !H1. lia. }
    pose proof (len_nonneg ee). pose proof (len_nonneg rest).
    destruct (Z.ltb_spec (len B) (len pre + len es + 1 + len ec)); [lia|].
    assert (HB : B = (pre ++ es ++ [newline]) ++ ec
                     ++ (newline :: ee ++ [newline] ++ rest)).
    { unfold B. repeat (rewrite <- app_assoc; cbn [app]). reflexivity. }
    replace (len pre + len es + 1) with (len (pre ++ es ++ [newline]))
      by (rewrite !len_app, ?H1; lia).
    rewrite HB, slice_app_middle, (decode_encoded c ec Hc). reflexivity. }
  (* the end marker *)
  assert (Hk : skip_end_delimiter B (len pre + len es + 1 + len ec) f None
               = Ok (len pre
                     + len (es ++ [newline] ++ ec ++ [newline] ++ ee
                            ++ [newline]))).
  { assert (HB : B = (pre ++ es ++ [newline] ++ ec) ++ [newline] ++ ee
                     ++ (newline :: rest)).
    { unfold B. repeat (rewrite <- app_assoc; cbn [app]). reflexivity. }
    replace (len pre + len es + 1 + len ec)
      with (len (pre ++ es ++ [newline] ++ ec))
      by (rewrite !len_app, ?H1; lia).
    rewrite HB.
    rewrite (skip_end_delimiter_present _ [newline] ee (newline :: rest) f
               None);
      [ | now right | now apply decode_encoded | exact HEne | exact HEnl
        | right; eauto ].
    f_equal. rewrite !len_app, !H1. lia. }
  apply (extract_next_file_found B (len pre) None L f c (len ec)
           (len pre + len es + 1 + len ec)).
  - rewrite Hle. lia.
  - rewrite Hle, Hline. now apply decode_encoded.
  - now apply parse_created_default.
  - rewrite Hle. exact Hx.
  - exact Hk.
Qed.

(** X11.  Round trip of one record, under the default configuration.  Let
    [bs] be the UTF-8 encoding of the text
    [start delimiter, newline, content, newline, end delimiter, newline]
    written for a filename [f] and a content [c], the byte count being the
    length of the encoding of [c].  If [f] has no newline and the start
    prefix followed by [f] contains neither [" ("] nor [" bytes) ---"],
    then wherever [bs] stands in a buffer, [extract_next_file] at its first
    byte returns the record [(f, c)] and the position of the byte after
    [bs], whatever the content and the bytes around. *)
Theorem packed_record_round_trip (pre rest bs ec : bytes) (f c : str) :
  encode c = Ok ec ->
  encode (content_part f c (len ec) default_config) = Ok bs ->
  ~ In 10 f ->
  contains (file_start_middle default_config)
    (file_start_prefix default_config ++ f) = false ->
  contains (file_start_bytes_suffix default_config)
    (file_start_prefix default_config ++ f) = false ->
  extract_next_file (pre ++ bs ++ rest) (len pre) None
  = Ok (Some (f, c), len pre + len bs).
Proof.
  intros Hc Hbs. apply encode_ok in Hc, Hbs.
  now apply extract_packed_record with (ec := ec).
Qed.

Lemma packed_record_round_trip_witness :
  extract_next_file
    ((b "noise" ++ nl)
     ++ (b "--- FILE: a.txt (18 bytes) ---" ++ nl ++ b "--- END: a.txt ---"
         ++ nl ++ b "--- END: a.txt ---" ++ nl)
     ++ b "more")
    (len (b "noise" ++ nl)) None
  = Ok (Some (u "a.txt", u "--- END: a.txt ---"),
        len (b "noise" ++ nl)
        + len (b "--- FILE: a.txt (18 bytes) ---" ++ nl
               ++ b "--- END: a.txt ---" ++ nl ++ b "--- END: a.txt ---"
               ++ nl)).
Proof.
  apply (packed_record_round_trip (b "noise" ++ nl) (b "more") _
           (b "--- END: a.txt ---") (u "a.txt") (u "--- END: a.txt ---")).
  - reflexivity.
  - reflexivity.
  - vm_compute. intuition discriminate.
  - reflexivity.
  - reflexivity.
Defined.

End RoundTrip.

(** ** Packing, then extracting *)

Section Pack.

Variables Path FileReader Error : Type.
Variable find_matching_files : Path -> str -> Error + list Path.
Variable read_multiple_files :
  list Path -> option FileReader -> Error + list (str * str).
Variable get_file_byte_count : str -> Error + Z.

Lemma encodable_app (s t : str) :
  (exists x, utf8_encode s = Some x) ->
  (exists y, utf8_encode t = Some y) ->
  exists z, utf8_encode (s ++ t) = Some z.
Proof.
  intros [x Hx] [y Hy]. rewrite utf8_encode_app, Hx, Hy. eauto.
Qed.

Lemma content_part_encodable (f c : str) (n : Z) :
  0 <= n ->
  (exists x, utf8_encode f = Some x) ->
  (exists y, utf8_encode c = Some y) ->
  exists bs, utf8_encode (content_part f c n default_config) = Some bs.
Proof.
  intros Hn Hf Hc. unfold content_part, create_file_start_delimiter,
    create_file_end_delimiter. cbn [or_default].
  assert (Hnl : exists x, utf8_encode [10] = Some x)
    by (eexists; reflexivity).
  repeat apply encodable_app; try assumption;
    try (eexists; reflexivity).
  apply utf8_encode_digits. now apply str_of_int_digits.
Qed.

(** The loop of [pack_files] on packable files: it appends one part per
    file, and from the end of any bytes put before the encoded parts
    [extract_next_file] walks through the files. *)
Lemma pack_content_parts_packable (file_data : list (str * str)) :
  Forall (packable Error get_file_byte_count) file_data ->
  forall content_parts,
  exists parts bs,
    pack_content_parts Error get_file_byte_count default_config file_data
      content_parts = inr (content_parts ++ parts)
    /\ utf8_encode (concat parts) = Some bs
    /\ forall pre, extracts_in_order (pre ++ bs) (len pre) None file_data.
Proof.
  induction 1 as [|[f c] file_data Hfile _ IH]; intros acc.
  - exists [], []. cbn [pack_content_parts concat utf8_encode].
    rewrite !app_nil_r. repeat split. intros pre. cbn.
    now rewrite app_nil_r.
  - destruct Hfile as (Hnl & Hmid & Hsuf & [ef Hef] & ec & Hec & Hcount).
    cbn [fst snd] in *. apply encode_ok in Hef, Hec.
    destruct (content_part_encodable f c (len ec) (len_nonneg ec)
                (ex_intro _ ef Hef) (ex_intro _ ec Hec)) as [bs1 Hbs1].
    destruct (IH (acc ++ [content_part f c (len ec) default_config]))
      as (parts & bs & Hparts & Hbs & Hwalk).
    exists (content_part f c (len ec) default_config :: parts), (bs1 ++ bs).
    cbn [pack_content_parts]. rewrite Hcount, Hparts.
    split; [now rewrite <- app_assoc|]. split.
    + cbn [concat]. now rewrite utf8_encode_app, Hbs1, Hbs.
    + intros pre. cbn [extracts_in_order].
      exists (len pre + len bs1). split.
      * now apply extract_packed_record with (ec := ec).
      * rewrite app_assoc, <- len_app. apply Hwalk.
Qed.

(** X12.  [pack_files] and [extract_next_file] compose.  When the file
    search returns at least one path, the files are read, and every
    (filename, content) pair read is packable (the filename is one line and
    keeps the parser's two searches on the written fragments, both texts can
    be encoded, and [get_file_byte_count] returns the length of the encoded
    content), [pack_files] with the default configuration returns a text;
    and on the UTF-8 encoding of that text, starting at position 0,
    successive calls of [extract_next_file] return exactly the files read,
    in order, each call starting where the previous one stopped and the
    last one stopping at the end of the buffer. *)
Theorem packed_stream_is_recovered (pattern : str) (search_directory : Path)
    (file_reader : option FileReader) (matching_files : list Path)
    (file_data : list (str * str)) :
  find_matching_files search_directory pattern = inr matching_files ->
  matching_files <> [] ->
  read_multiple_files matching_files file_reader = inr file_data ->
  Forall (packable Error get_file_byte_count) file_data ->
  exists packed bs,
    pack_files Path FileReader Error find_matching_files read_multiple_files
      get_file_byte_count pattern search_directory None file_reader
    = inr packed
    /\ encode packed = Ok bs
    /\ extracts_in_order bs 0 None file_data.
Proof.
  intros Hfind Hne Hread Hfiles.
  destruct (pack_content_parts_packable file_data Hfiles [])
    as (parts & bs & Hparts & Hbs & Hwalk).
  exists (concat parts), bs. unfold pack_files. cbn [or_default].
  rewrite Hfind. destruct matching_files; [congruence|].
  rewrite Hread, Hparts. cbn [app]. split; [reflexivity|].
  split; [now apply encode_ok|]. exact (Hwalk []).
Qed.

End Pack.

Lemma packed_stream_is_recovered_witness :
  exists packed bs,
    pack_files nat unit exn (in_memory_find two_files)
      (in_memory_read two_files) utf8_byte_count (u "*.txt") 0%nat None None
    = inr packed
    /\ encode packed = Ok bs
    /\ extracts_in_order bs 0 None two_files.
Proof.
  apply (packed_stream_is_recovered nat unit exn (in_memory_find two_files)
           (in_memory_read two_files) utf8_byte_count (u "*.txt") 0%nat None
           [0%nat; 1%nat] two_files).
  - reflexivity.
  - discriminate.
  - reflexivity.
  - repeat constructor; cbn [fst snd];
      try (vm_compute; intuition discriminate);
      try (eexists; reflexivity);
      try (eexists; split; reflexivity).
Defined.

(** ** Empty lines *)

Section EmptyLine.

(** X13.  On an empty line, that is at the end of the buffer or on a
    newline byte, [extract_next_file] returns no record and leaves the
    cursor where it is, blank lines inside the buffer included. *)
Theorem empty_line_stops_the_cursor (content_bytes : bytes) (pos : Z)
    (config : option BundlerConfig) :
  0 <= pos ->
  pos = len content_bytes
  \/ slice content_bytes pos (pos + 1) = [newline] ->
  extract_next_file content_bytes pos config = Ok (None, pos).
Proof.
  intros Hpos Hat.
  assert (Hle : find_next_line_end content_bytes pos = pos).
  { destruct Hat as [-> | Hnl].
    - apply find_next_line_end_beyond. lia.
    - assert (Hin : pos < len content_bytes).
      { destruct (Z.lt_ge_cases pos (len content_bytes)) as [H | H];
          [exact H|].
        rewrite slice_beyond in Hnl by lia. discriminate. }
      rewrite (slice_in_range content_bytes pos 1) in Hnl by lia.
      unfold find_next_line_end, find_byte, find_start.
      destruct (Z.ltb_spec pos 0); [lia|].
      destruct (skipn (Z.to_nat pos) content_bytes) as [|c t];
        [discriminate|].
      cbn in Hnl. injection Hnl as ->. cbn [index_from].
      rewrite (Byte.byte_dec_lb (eq_refl newline)).
      destruct (Z.eqb_spec pos (-1)); [lia | reflexivity]. }
  unfold extract_next_file. rewrite Hle, Z.eqb_refl. reflexivity.
Qed.

Lemma empty_line_stops_the_cursor_witness :
  extract_next_file (b "ab" ++ nl ++ nl ++ b "cd") 3 None = Ok (None, 3).
Proof.
  apply (empty_line_stops_the_cursor (b "ab" ++ nl ++ nl ++ b "cd") 3 None).
  - lia.
  - right. reflexivity.
Defined.

End EmptyLine.
